(** * A storefront backend: product catalogue, login, cart and checkout

    Shallow embedding of [src/server.js] (the Express application whose
    routes are [/login], [/product], [/products], [/products/:id], [/cart]
    and [/cart/purchase]) and the properties its specification states.

    The seeding callback run when the connection opens and the login route
    of the earlier server in the same file, which searches the in-memory
    array, are embedded as well.

    The three mongoose collections are an explicit store that every route
    handler receives and returns.  A handler either sends a response or
    raises an exception before sending one.

    The server is embedded at two levels.

    - First on typed requests: an id is an [ObjectId], a number is an
      exact rational ([Q]), a numeric field read after validation is an
      [option Q] ([None] is any value that is not a number), and a new
      document gets an id never handed out before.  The properties stated
      at this level are the ones in which neither the text of a value nor
      the rounding of a subtraction has a part.

    - Then, in [Double], on requests as they arrive: the id of a request
      is its text, which mongoose casts to an [ObjectId] or refuses by
      throwing; a numeric body value is both the text the validation
      chains test and the number mongoose casts it to; a number is an
      IEEE 754 double, compared and subtracted as JavaScript does; a body
      can bring its own [_id]; a save that the database refuses throws. *)

From Stdlib Require Import QArith Lqa Ascii Floats.
From stdpp Require Import gmap strings list fin_maps.

Local Open Scope string_scope.

(** ** Schemas (server.js, [productSchema], [userSchema], [cartSchema]) *)

Abbreviation ObjectId := string (only parsing).

Record Product := mkProduct {
  name : string;
  price : Q;
  stock : Q;
}.

Record User := mkUser {
  username : string;
  password : string;
  role : string;   (* 'admin' or 'user' *)
}.

Record CartLine := mkCartLine {
  userId : string;
  productId : ObjectId;
  quantity : Q;
}.

(** The database: the [Product], [User] and [Cart] collections.  Products
    are keyed by their [_id]; users and cart lines are kept in insertion
    order, which is the order [find] returns them in.  [issued] is the set
    of ids handed out so far: a new [ObjectId] is never one of them. *)
Record Store := mkStore {
  products : gmap string Product;
  users : list User;
  cart : list CartLine;
  issued : gset string;
}.

Definition set_products (ps : gmap string Product) (st : Store) : Store :=
  {| products := ps; users := users st; cart := cart st; issued := issued st |}.

Definition set_cart (c : list CartLine) (st : Store) : Store :=
  {| products := products st; users := users st; cart := c; issued := issued st |}.

(** ** Responses *)

(** One entry of [errors.array()]: the field and the [withMessage] text. *)
Record FieldError := mkFieldError {
  param : string;
  msg : string;
}.

(** The JSON bodies the handlers send. *)
Inductive payload : Type :=
| JRole (role : string)                                   (* { role } *)
| JError (error : string)                                 (* { error } *)
| JErrors (errors : list FieldError)                      (* { errors } *)
| JMessage (message : string)                             (* { message } *)
| JMessageProduct (message : string) (id : ObjectId) (product : Product)
                                                          (* { message, product } *)
| JProducts (docs : list (ObjectId * Product))            (* [product, ...] *)
| JText (text : string).                                  (* a JSON string *)

Record response := mkResponse {
  status : N;
  body : payload;
}.

(** [res.json(x)] answers with status 200; [res.status(n).json(x)] with [n]. *)
Definition res_json (x : payload) : response := mkResponse 200%N x.
Definition res_status_json (n : N) (x : payload) : response := mkResponse n x.

Inductive exception : Type :=
| TypeError (message : string)   (* property read on null *)
| CastError (path : string).     (* mongoose could not cast a field on save *)

Inductive outcome : Type :=
| Responded (r : response)
| Threw (e : exception).

(** The error taxonomy of the specification, read off a response. *)
Inductive error_kind : Type :=
| ValidationError | Unauthorized | NotFound | InsufficientStock.

Definition classify (o : outcome) : option error_kind :=
  match o with
  | Responded (mkResponse 400%N (JErrors _)) => Some ValidationError
  | Responded (mkResponse 400%N (JError _)) => Some InsufficientStock
  | Responded (mkResponse 401%N _) => Some Unauthorized
  | Responded (mkResponse 404%N _) => Some NotFound
  | _ => None
  end.

(** ** express-validator chains on the typed fields *)

(** [notEmpty()]: the field's text has length greater than zero. *)
Definition notEmpty (s : string) : bool :=
  match s with
  | EmptyString => false
  | String _ _ => true
  end.

(** [isNumeric()]: the field is a number. *)
Definition isNumeric (v : option Q) : bool :=
  match v with
  | Some _ => true
  | None => false
  end.

(** A rational with no fractional part. *)
Definition is_integer (q : Q) : bool :=
  (Qnum q mod Z.pos (Qden q) =? 0)%Z.

(** [isInt({ min })]: the field is an integer not below [min]. *)
Definition isInt (min : Z) (v : option Q) : bool :=
  match v with
  | Some q => is_integer q && Qle_bool (inject_Z min) q
  | None => false
  end.

(** One chain: no error when the check passes, else its message. *)
Definition check (ok : bool) (field message : string) : list FieldError :=
  if ok then [] else [mkFieldError field message].

(** ** Request bodies *)

Record ProductBody := mkProductBody {
  body_name : string;
  body_price : option Q;
  body_stock : option Q;
}.

Record CartBody := mkCartBody {
  body_userId : string;
  body_productId : ObjectId;
  body_quantity : Q;
}.

(** The validation chains of [POST /products] and [PUT /products/:id];
    [validationResult(req)] is the list of their errors. *)
Definition product_chains (b : ProductBody) : list FieldError :=
  check (notEmpty (body_name b)) "name" "Name is required" ++
  check (isNumeric (body_price b)) "price" "Price must be a number" ++
  check (isInt 0 (body_stock b)) "stock" "Stock must be a non-negative integer".

(** The validation chains of [POST /cart]. *)
Definition cart_chains (b : CartBody) : list FieldError :=
  check (notEmpty (body_userId b)) "userId" "User ID required" ++
  check (notEmpty (body_productId b)) "productId" "Product ID required" ++
  check (isInt 1 (Some (body_quantity b))) "quantity" "Quantity must be at least 1".

Definition isEmpty {A} (l : list A) : bool :=
  match l with
  | [] => true
  | _ :: _ => false
  end.

(** ** Store operations (mongoose model methods) *)

(** [new Product(req.body)]: the body cast to the schema, or the path that
    cannot be cast. *)
Definition new_Product (b : ProductBody) : Product + string :=
  match body_price b, body_stock b with
  | Some p, Some s => inl (mkProduct (body_name b) p s)
  | None, _ => inr "price"
  | _, None => inr "stock"
  end.

(** The [_id] a new document gets. *)
Definition new_ObjectId (st : Store) : ObjectId := fresh (issued st).

(** [Product.findById(id)] *)
Definition findById (id : ObjectId) (st : Store) : option Product :=
  products st !! id.

(** [newProduct.save()]: the first save of a document made with
    [new Product], under the [_id] it was given. *)
Definition save_new_product (id : ObjectId) (p : Product) (st : Store) : Store :=
  {| products := <[id := p]> (products st);
     users := users st;
     cart := cart st;
     issued := {[id]} ∪ issued st |}.

(** [product.save()] of a document that was fetched from the store. *)
Definition save_product (id : ObjectId) (p : Product) (st : Store) : Store :=
  set_products (<[id := p]> (products st)) st.

(** [Product.findByIdAndUpdate(id, req.body, { new: true })]: the fields of
    the body replace the document's, and the new document is returned;
    [None] when no document has the id. *)
Definition findByIdAndUpdate (id : ObjectId) (p : Product) (st : Store)
  : option Product * Store :=
  match products st !! id with
  | Some _ => (Some p, set_products (<[id := p]> (products st)) st)
  | None => (None, st)
  end.

(** [Product.findByIdAndDelete(id)] *)
Definition findByIdAndDelete (id : ObjectId) (st : Store) : Store :=
  set_products (delete id (products st)) st.

(** [User.findOne({ username, password })]: the first user with both. *)
Definition findOne_user (un pw : string) (st : Store) : option User :=
  find (fun u => bool_decide (username u = un) && bool_decide (password u = pw))
       (users st).

(** [Cart.find({ userId })] *)
Definition Cart_find (uid : string) (st : Store) : list CartLine :=
  filter (fun l => userId l = uid) (cart st).

(** [Cart.deleteMany({ userId })] *)
Definition Cart_deleteMany (uid : string) (st : Store) : Store :=
  set_cart (filter (fun l => userId l ≠ uid) (cart st)) st.

(** [cartItem.save()] of a new cart line. *)
Definition save_cartItem (l : CartLine) (st : Store) : Store :=
  set_cart (cart st ++ [l]) st.

(** [a < b] and [a >= b] on numbers. *)
Definition js_lt (a b : Q) : bool := negb (Qle_bool b a).
Definition js_ge (a b : Q) : bool := Qle_bool b a.

(** ** Route handlers *)

(** [POST /login] *)
Definition login (un pw : string) (st : Store) : outcome * Store :=
  match findOne_user un pw st with
  | Some foundUser => (Responded (res_json (JRole (role foundUser))), st)
  | None => (Responded (res_status_json 401 (JError "Invalid credentials")), st)
  end.

(** [GET /product] *)
Definition listProducts (st : Store) : outcome * Store :=
  (Responded (res_json (JProducts (map_to_list (products st)))), st).

(** [POST /products] *)
Definition createProduct (b : ProductBody) (st : Store) : outcome * Store :=
  let errors := product_chains b in
  if negb (isEmpty errors) then
    (Responded (res_status_json 400 (JErrors errors)), st)
  else
    match new_Product b with
    | inl newProduct =>
        let id := new_ObjectId st in
        (Responded (res_json (JMessageProduct "Product created" id newProduct)),
         save_new_product id newProduct st)
    | inr path => (Threw (CastError path), st)
    end.

(** [PUT /products/:id] *)
Definition updateProduct (id : ObjectId) (b : ProductBody) (st : Store)
  : outcome * Store :=
  let errors := product_chains b in
  if negb (isEmpty errors) then
    (Responded (res_status_json 400 (JErrors errors)), st)
  else
    match new_Product b with
    | inl fields =>
        match findByIdAndUpdate id fields st with
        | (Some updated, st') =>
            (Responded (res_json (JMessageProduct "Product updated" id updated)), st')
        | (None, st') =>
            (Responded (res_status_json 404 (JError "Product not found")), st')
        end
    | inr path => (Threw (CastError path), st)
    end.

(** [DELETE /products/:id] *)
Definition deleteProduct (id : ObjectId) (st : Store) : outcome * Store :=
  (Responded (res_json (JMessage "Product deleted")), findByIdAndDelete id st).

(** [POST /cart].  The chains of the route run before the handler and
    record their errors on the request; the handler never reads them. *)
Definition addToCart (b : CartBody) (st : Store) : outcome * Store :=
  let _errors := cart_chains b in
  let userId := body_userId b in
  let productId := body_productId b in
  let quantity := body_quantity b in
  match findById productId st with
  | Some product =>
      if js_lt (stock product) quantity then
        (Responded (res_status_json 400
           (JError "Insufficient stock or product not found")), st)
      else
        let cartItem := mkCartLine userId productId quantity in
        (Responded (res_json (JMessage "Added to cart")), save_cartItem cartItem st)
  | None =>
      (Responded (res_status_json 400
         (JError "Insufficient stock or product not found")), st)
  end.

(** The [for (let item of items)] loop of [POST /cart/purchase]: [inl] is
    the store when the loop runs to its end, [inr] the outcome and the
    store at an early exit. *)
Fixpoint purchase_loop (items : list CartLine) (st : Store)
  : Store + outcome * Store :=
  match items with
  | [] => inl st
  | item :: rest =>
      match findById (productId item) st with
      | Some product =>
          if js_ge (stock product) (quantity item) then
            let product' :=
              mkProduct (name product) (price product)
                        (stock product - quantity item) in
            purchase_loop rest (save_product (productId item) product' st)
          else
            inr (Responded (res_status_json 400
                   (JError ("Insufficient stock for " ++ name product))), st)
      | None =>
          (* `Insufficient stock for ${product.name}` with product null *)
          inr (Threw (TypeError "Cannot read properties of null (reading 'name')"), st)
      end
  end.

(** [POST /cart/purchase] *)
Definition purchase (uid : string) (st : Store) : outcome * Store :=
  let items := Cart_find uid st in
  match purchase_loop items st with
  | inl st' =>
      (Responded (res_json (JText "Purchase successful!")), Cart_deleteMany uid st')
  | inr early => early
  end.

(** ** The application: one request at a time *)

Inductive request : Type :=
| PostLogin (username password : string)
| GetProduct
| PostProducts (b : ProductBody)
| PutProducts (id : ObjectId) (b : ProductBody)
| DeleteProducts (id : ObjectId)
| PostCart (b : CartBody)
| PostCartPurchase (userId : string).

Definition app (r : request) (st : Store) : outcome * Store :=
  match r with
  | PostLogin un pw => login un pw st
  | GetProduct => listProducts st
  | PostProducts b => createProduct b st
  | PutProducts id b => updateProduct id b st
  | DeleteProducts id => deleteProduct id st
  | PostCart b => addToCart b st
  | PostCartPurchase uid => purchase uid st
  end.

(** Requests served one after the other; the store after the last one. *)
Definition serve (rs : list request) (st : Store) : Store :=
  foldl (fun s r => (app r s).2) st rs.

(** ** Specification-side vocabulary *)

(** The field is a number. *)
Definition is_number (v : option Q) : Prop := ∃ q, v = Some q.

(** The field is a number that is an integer and not negative. *)
Definition is_nonneg_integer (v : option Q) : Prop :=
  ∃ q z, v = Some q ∧ (q == inject_Z z)%Q ∧ (0 ≤ z)%Z.

(** A body that the specification calls valid for create and update. *)
Definition valid_product_input (b : ProductBody) : Prop :=
  body_name b ≠ "" ∧ is_number (body_price b) ∧ is_nonneg_integer (body_stock b).

(** The user record matches both submitted fields. *)
Definition credentials_match (un pw : string) (u : User) : Prop :=
  username u = un ∧ password u = pw.

(** What settlement does to the product of one line. *)
Definition decrement (l : CartLine) (ps : gmap string Product) : gmap string Product :=
  alter (fun p => mkProduct (name p) (price p) (stock p - quantity l)) (productId l) ps.

(** Every line passes its stock check when the lines are taken in order,
    each one against the stock the lines before it have left. *)
Fixpoint lines_pass (items : list CartLine) (ps : gmap string Product) : Prop :=
  match items with
  | [] => True
  | l :: rest =>
      (∃ p, ps !! productId l = Some p ∧ (quantity l <= stock p)%Q) ∧
      lines_pass rest (decrement l ps)
  end.

(** The quantities of the lines that reference product [id], added up. *)
Fixpoint ordered (id : ObjectId) (items : list CartLine) : Q :=
  match items with
  | [] => 0
  | l :: rest =>
      if decide (productId l = id) then quantity l + ordered id rest
      else ordered id rest
  end.

(** Every stored stock is at least zero. *)
Definition stock_nonneg (st : Store) : Prop :=
  ∀ id p, products st !! id = Some p → (0 <= stock p)%Q.

(** Every stored stock is a whole number. *)
Definition stock_integer (st : Store) : Prop :=
  ∀ id p, products st !! id = Some p → is_integer (stock p) = true.

(** ** Sample databases *)

Definition productA : Product := mkProduct "Product A" 10 10.
Definition productB : Product := mkProduct "Product B" 20 50.

(** Two products, the two seeded users, no cart line. *)
Definition sample_store : Store :=
  {| products := <["p1" := productA]> (<["p2" := productB]> ∅);
     users := [mkUser "admin" "admin123" "admin"; mkUser "user" "user123" "user"];
     cart := [];
     issued := {["p1"; "p2"]} |}.

(** User "u" holds one line: three of product "p1", whose stock is 10. *)
Definition single_line_store : Store :=
  set_cart [mkCartLine "u" "p1" 3] sample_store.

(** User "u" holds a line for "p1" and then a line whose product has been
    deleted; user "v" holds a line of their own. *)
Definition dangling_store : Store :=
  set_cart [mkCartLine "u" "p1" 3; mkCartLine "u" "gone" 1; mkCartLine "v" "p2" 1]
           sample_store.

(** User "u" holds a line that asks for more of "p1" than there is, after a
    line that passes. *)
Definition short_store : Store :=
  set_cart [mkCartLine "u" "p2" 5; mkCartLine "u" "p1" 11] sample_store.

(** A valid body for create and update. *)
Definition restock_body : ProductBody :=
  mkProductBody "Product A+" (Some 12%Q) (Some 8%Q).

(** Cart requests that the chains of [POST /cart] flag. *)
Definition zero_quantity_body : CartBody := mkCartBody "u" "p1" 0.
Definition no_user_body : CartBody := mkCartBody "" "p1" 1.
Definition fractional_body : CartBody := mkCartBody "u" "p1" (3 # 2).

(** ** Seeding on connection open (server.js, [mongoose.connection.once]) *)

(** The [users] array of the source, under a name of its own: [users] is
    the store's collection here. *)
Definition dummyUsers : list User :=
  [mkUser "admin" "admin123" "admin"; mkUser "user" "user123" "user"].

Definition dummyProducts : list Product :=
  [mkProduct "Product A" 10 100; mkProduct "Product B" 20 50].

(** [User.findOne({ username })] *)
Definition User_findOne_username (un : string) (st : Store) : option User :=
  find (fun u => bool_decide (username u = un)) (users st).

(** [Product.findOne({ name })].  The seeding code only asks whether a
    document came back, so which of several matches is returned does not
    matter. *)
Definition Product_findOne_name (n : string) (st : Store)
  : option (ObjectId * Product) :=
  find (fun d => bool_decide (name d.2 = n)) (map_to_list (products st)).

(** [new User(user).save()] *)
Definition save_user (u : User) (st : Store) : Store :=
  {| products := products st;
     users := users st ++ [u];
     cart := cart st;
     issued := issued st |}.

(** The loop [for (const user of users)]. *)
Fixpoint seed_users (us : list User) (st : Store) : Store :=
  match us with
  | [] => st
  | user :: rest =>
      match User_findOne_username (username user) st with
      | Some _existingUser => seed_users rest st
      | None => seed_users rest (save_user user st)
      end
  end.

(** The loop [for (const product of dummyProducts)]. *)
Fixpoint seed_products (ps : list Product) (st : Store) : Store :=
  match ps with
  | [] => st
  | product :: rest =>
      match Product_findOne_name (name product) st with
      | Some _existingProduct => seed_products rest st
      | None =>
          seed_products rest (save_new_product (new_ObjectId st) product st)
      end
  end.

(** The whole [once('open', ...)] callback. *)
Definition seed (st : Store) : Store :=
  seed_products dummyProducts (seed_users dummyUsers st).

(** ** The earlier login route, on the in-memory array *)

(** [POST /login] of the first server: [users.find(...)] on the array. *)
Definition login_array (un pw : string) : outcome :=
  match find (fun u => bool_decide (username u = un) &&
                       bool_decide (password u = pw)) dummyUsers with
  | Some foundUser => Responded (res_json (JRole (role foundUser)))
  | None => Responded (res_status_json 401 (JError "Invalid credentials"))
  end.

(** ** More vocabulary *)

(** Every id a product is stored under has been handed out. *)
Definition ids_issued (st : Store) : Prop :=
  ∀ id, is_Some (products st !! id) → id ∈ issued st.

(** The answer of a successful checkout. *)
Definition purchase_ok : outcome :=
  Responded (res_json (JText "Purchase successful!")).

(** The answer of a successful cart request. *)
Definition added_ok : outcome :=
  Responded (res_json (JMessage "Added to cart")).

(** The line a cart request stores. *)
Definition line_of (b : CartBody) : CartLine :=
  mkCartLine (body_userId b) (body_productId b) (body_quantity b).

(** A database with nothing in it. *)
Definition empty_store : Store :=
  {| products := ∅; users := []; cart := []; issued := ∅ |}.

(** ** Requests as they arrive: the text of ids and of numbers *)

(** The handlers above take an id that is an [ObjectId] already and numbers
    that are exact.  What follows is the server one step closer to the
    wire: the id is the text of the request, which mongoose casts or
    refuses; a body value is what express-validator and mongoose see of
    it; a number is an IEEE 754 double. *)

Definition is_digit (c : ascii) : bool :=
  (48 <=? nat_of_ascii c)%nat && (nat_of_ascii c <=? 57)%nat.

Definition is_lower_hex (c : ascii) : bool :=
  is_digit c || ((97 <=? nat_of_ascii c)%nat && (nat_of_ascii c <=? 102)%nat).

Definition is_upper_hex (c : ascii) : bool :=
  (65 <=? nat_of_ascii c)%nat && (nat_of_ascii c <=? 70)%nat.

Definition is_hex (c : ascii) : bool := is_lower_hex c || is_upper_hex c.

(** [A]..[F] to [a]..[f]. *)
Definition lower_hex (c : ascii) : ascii :=
  if is_upper_hex c then ascii_of_nat (nat_of_ascii c + 32) else c.

Definition hex_digit (n : nat) : ascii :=
  if (n <? 10)%nat then ascii_of_nat (48 + n) else ascii_of_nat (87 + n).

Definition hex_of_byte (c : ascii) : list ascii :=
  [hex_digit (nat_of_ascii c / 16); hex_digit (nat_of_ascii c mod 16)].

Definition is_ascii7 (c : ascii) : bool := (nat_of_ascii c <? 128)%nat.

(** An id in the form the store keeps it in: 24 lowercase hexadecimal
    digits. *)
Definition is_ObjectId (id : string) : bool :=
  (length (String.list_ascii_of_string id) =? 24)%nat &&
  forallb is_lower_hex (String.list_ascii_of_string id).

(** The cast of an id's text to an [ObjectId]: 24 hexadecimal digits in
    either case name the id they spell, 12 ASCII characters name the id
    whose bytes they are, and any other text is refused.  (The 12-character
    form is the one thing here that generations of the driver disagree on;
    the properties below speak of well-formed ids and of texts shorter than
    12 characters only.) *)
Definition castObjectId (raw : string) : option ObjectId :=
  let l := String.list_ascii_of_string raw in
  if (length l =? 24)%nat && forallb is_hex l then
    Some (String.string_of_list_ascii (map lower_hex l))
  else if (length l =? 12)%nat && forallb is_ascii7 l then
    Some (String.string_of_list_ascii (flat_map hex_of_byte l))
  else None.

Definition is_sign (c : ascii) : bool :=
  Ascii.eqb c "+" || Ascii.eqb c "-".

Definition strip_sign (l : list ascii) : list ascii :=
  match l with
  | [] => []
  | c :: r => if is_sign c then r else l
  end.

(** [[0-9]+] *)
Definition nonempty_digits (l : list ascii) : bool :=
  match l with
  | [] => false
  | _ :: _ => forallb is_digit l
  end.

(** [([0-9]*[.])?[0-9]+] *)
Fixpoint numeric_tail (l : list ascii) : bool :=
  match l with
  | [] => false
  | c :: r =>
      if Ascii.eqb c "." then nonempty_digits r
      else is_digit c && match r with
                         | [] => true
                         | _ :: _ => numeric_tail r
                         end
  end.

(** validator's [isNumeric] on the text of the value: it matches
    [^[+-]?([0-9]*[.])?[0-9]+$]. *)
Definition isNumeric_text (s : string) : bool :=
  numeric_tail (strip_sign (String.list_ascii_of_string s)).

Definition digits_value (l : list ascii) : Z :=
  fold_left (fun acc c => (10 * acc + Z.of_nat (nat_of_ascii c - 48))%Z) l 0%Z.

(** The number a signed digit string denotes. *)
Definition int_value (l : list ascii) : Z :=
  match l with
  | c :: r =>
      if Ascii.eqb c "-" then (- digits_value r)%Z
      else if Ascii.eqb c "+" then digits_value r
      else digits_value l
  | [] => 0%Z
  end.

(** validator's [isInt({ min })] on the text of the value: it matches
    [^[-+]?[0-9]+$] and, read as a number, is not below [min]. *)
Definition isInt_text (min : Z) (s : string) : bool :=
  nonempty_digits (strip_sign (String.list_ascii_of_string s)) &&
  (min <=? int_value (String.list_ascii_of_string s))%Z.

(** ** Vocabulary for texts *)

(** A string of one or more decimal digits. *)
Definition digit_string (d : list ascii) : Prop :=
  d ≠ [] ∧ Forall (fun c => is_digit c = true) d.

(** No sign, [+] or [-]. *)
Definition sign_string (g : list ascii) : Prop :=
  g = [] ∨ g = ["+"%char] ∨ g = ["-"%char].

(** The first character of a numeral's unsigned part is a digit or the
    point, never a sign. *)
Definition starts_unsigned (t : list ascii) : Prop :=
  match t with
  | [] => False
  | c :: _ => is_sign c = false
  end.

(** The text is a decimal numeral: an optional sign, then digits, or
    digits (possibly none), a point and digits.  No exponent, no spaces. *)
Definition decimal_numeral (s : string) : Prop :=
  ∃ g f, sign_string g ∧ digit_string f ∧
    (String.list_ascii_of_string s = (g ++ f)%list ∨
     ∃ i, Forall (fun c => is_digit c = true) i ∧
          String.list_ascii_of_string s = (g ++ i ++ "."%char :: f)%list).

(** The text is an integer numeral, an optional sign and digits, and
    denotes [z]. *)
Definition integer_numeral (s : string) (z : Z) : Prop :=
  ∃ g d, sign_string g ∧ digit_string d ∧
    String.list_ascii_of_string s = (g ++ d)%list ∧
    z = (if decide (g = ["-"%char]) then - digits_value d else digits_value d)%Z.

(** ** The server on requests as they arrive, with IEEE doubles *)

Module Double.

(** A JavaScript [Number] is a double. *)
Record Product := mkProduct {
  name : string;
  price : float;
  stock : float;
}.

Record CartLine := mkCartLine {
  userId : string;
  productId : ObjectId;
  quantity : float;
}.

(** The database.  Ids are never invented here: the id a new document
    gets is an input of the request that creates it. *)
Record Store := mkStore {
  products : gmap string Product;
  users : list User;
  cart : list CartLine;
}.

Definition set_products (ps : gmap string Product) (st : Store) : Store :=
  {| products := ps; users := users st; cart := cart st |}.

Definition set_cart (c : list CartLine) (st : Store) : Store :=
  {| products := products st; users := users st; cart := c |}.

Inductive payload : Type :=
| JError (error : string)                                 (* { error } *)
| JErrors (errors : list FieldError)                      (* { errors } *)
| JMessage (message : string)                             (* { message } *)
| JMessageProduct (message : string) (id : ObjectId) (product : Product)
                                                          (* { message, product } *)
| JProducts (docs : list (ObjectId * Product))            (* [product, ...] *)
| JText (t : string).                                     (* a JSON string *)

Record response := mkResponse {
  status : N;
  body : payload;
}.

Definition res_json (x : payload) : response := mkResponse 200%N x.
Definition res_status_json (n : N) (x : payload) : response := mkResponse n x.

(** What a handler can throw.  None of the handlers catches anything, so
    a throw ends the request without a response. *)
Inductive exception : Type :=
| TypeError (message : string)   (* property read on null *)
| CastError (path : string)      (* mongoose cannot cast the value at [path]:
                                    raised by a query for its id, by [save]
                                    and by an update for a field *)
| DuplicateKey (id : ObjectId)   (* insert under an [_id] that is taken *)
| ImmutableField (path : string). (* update that would change [_id] *)

Inductive outcome : Type :=
| Responded (r : response)
| Threw (e : exception).

Definition classify (o : outcome) : option error_kind :=
  match o with
  | Responded (mkResponse 400%N (JErrors _)) => Some ValidationError
  | Responded (mkResponse 400%N (JError _)) => Some InsufficientStock
  | Responded (mkResponse 401%N _) => Some Unauthorized
  | Responded (mkResponse 404%N _) => Some NotFound
  | _ => None
  end.

(** A body value that should be a number, by what the code observes of
    it: [text] is [String(value)], which the validation chains test, and
    [number] is the value as a number, [None] when it has none.  A JSON
    number has its JavaScript rendering as its text; a JSON string is its
    own text. *)
Record field := mkField {
  text : string;
  number : option float;
}.

(** The body of [POST /products] and [PUT /products/:id]: the three
    fields, and the body's own [_id] key when it has one. *)
Record ProductBody := mkProductBody {
  body__id : option string;
  body_name : string;
  body_price : field;
  body_stock : field;
}.

(** The body of [POST /cart]; the quantity is a number. *)
Record CartBody := mkCartBody {
  body_userId : string;
  body_productId : string;
  body_quantity : float;
}.

(** The chains of [POST /products] and [PUT /products/:id]. *)
Definition product_chains (b : ProductBody) : list FieldError :=
  check (notEmpty (body_name b)) "name" "Name is required" ++
  check (isNumeric_text (text (body_price b))) "price" "Price must be a number" ++
  check (isInt_text 0 (text (body_stock b))) "stock"
        "Stock must be a non-negative integer".

(** mongoose's cast to [Number]: refused for a value that is no number and
    for NaN. *)
Definition castNumber (f : field) : option float :=
  match number f with
  | Some x => if PrimFloat.is_nan x then None else Some x
  | None => None
  end.

(** The three fields cast to the product schema, or the path that cannot
    be cast. *)
Definition cast_fields (b : ProductBody) : Product + string :=
  match castNumber (body_price b), castNumber (body_stock b) with
  | Some p, Some s => inl (mkProduct (body_name b) p s)
  | None, _ => inr "price"
  | _, None => inr "stock"
  end.

(** The body's own [_id], cast: [inl None] when the body has none, [inr]
    the path when it has one that cannot be cast. *)
Definition cast_body_id (b : ProductBody) : option ObjectId + string :=
  match body__id b with
  | None => inl None
  | Some raw =>
      match castObjectId raw with
      | Some id => inl (Some id)
      | None => inr "_id"
      end
  end.

(** The [_id] of the document [new Product(req.body)] makes: the body's
    own when it brings one, else the id the driver generates. *)
Definition document_id (generated : ObjectId) (_id : option ObjectId)
  : ObjectId :=
  match _id with
  | Some id => id
  | None => generated
  end.

(** [Product.findById(id)] on an id that is an [ObjectId], as a cart line
    holds it. *)
Definition findById (id : ObjectId) (st : Store) : option Product :=
  products st !! id.

(** [newProduct.save()]: the insert of a new document. *)
Definition save_new_product (id : ObjectId) (p : Product) (st : Store)
  : Store + exception :=
  match products st !! id with
  | Some _ => inr (DuplicateKey id)
  | None => inl (set_products (<[id := p]> (products st)) st)
  end.

(** [product.save()] of a fetched document whose [stock] was assigned.
    mongoose does not cast NaN to [Number], so the save of such a stock is
    rejected. *)
Definition save_product (id : ObjectId) (p : Product) (st : Store)
  : Store + exception :=
  if PrimFloat.is_nan (stock p) then inr (CastError "stock")
  else inl (set_products (<[id := p]> (products st)) st).

(** [Product.findByIdAndUpdate(id, req.body, { new: true })] once the id
    and the three fields are cast: nothing happens when no document has
    the id; a body whose own [_id] is another id would change the [_id] of
    the document it matches, which the database refuses. *)
Definition findByIdAndUpdate (id : ObjectId) (_id : option ObjectId)
    (p : Product) (st : Store) : option Product * Store + exception :=
  match products st !! id with
  | Some _ =>
      match _id with
      | Some other =>
          if decide (other = id) then
            inl (Some p, set_products (<[id := p]> (products st)) st)
          else inr (ImmutableField "_id")
      | None => inl (Some p, set_products (<[id := p]> (products st)) st)
      end
  | None => inl (None, st)
  end.

(** [Product.findByIdAndDelete(id)] *)
Definition findByIdAndDelete (id : ObjectId) (st : Store) : Store :=
  set_products (delete id (products st)) st.

(** [Cart.find({ userId })] *)
Definition Cart_find (uid : string) (st : Store) : list CartLine :=
  filter (fun l => userId l = uid) (cart st).

(** [Cart.deleteMany({ userId })] *)
Definition Cart_deleteMany (uid : string) (st : Store) : Store :=
  set_cart (filter (fun l => userId l ≠ uid) (cart st)) st.

(** [cartItem.save()] of a new cart line; a NaN quantity is not cast. *)
Definition save_cartItem (l : CartLine) (st : Store) : Store + exception :=
  if PrimFloat.is_nan (quantity l) then inr (CastError "quantity")
  else inl (set_cart (cart st ++ [l]) st).

(** [GET /product] *)
Definition listProducts (st : Store) : outcome * Store :=
  (Responded (res_json (JProducts (map_to_list (products st)))), st).

(** [POST /products].  [generated] is the id [new Product] generates for
    this request when the body brings none. *)
Definition createProduct (generated : ObjectId) (b : ProductBody) (st : Store)
  : outcome * Store :=
  let errors := product_chains b in
  if negb (isEmpty errors) then
    (Responded (res_status_json 400 (JErrors errors)), st)
  else
    match cast_fields b, cast_body_id b with
    | inr path, _ => (Threw (CastError path), st)
    | inl _, inr path => (Threw (CastError path), st)
    | inl newProduct, inl _id =>
        let id := document_id generated _id in
        match save_new_product id newProduct st with
        | inl st' =>
            (Responded (res_json
               (JMessageProduct "Product created" id newProduct)), st')
        | inr e => (Threw e, st)
        end
    end.

(** [PUT /products/:id]; [raw_id] is [req.params.id]. *)
Definition updateProduct (raw_id : string) (b : ProductBody) (st : Store)
  : outcome * Store :=
  let errors := product_chains b in
  if negb (isEmpty errors) then
    (Responded (res_status_json 400 (JErrors errors)), st)
  else
    match castObjectId raw_id with
    | None => (Threw (CastError "_id"), st)
    | Some id =>
        match cast_fields b, cast_body_id b with
        | inr path, _ => (Threw (CastError path), st)
        | inl _, inr path => (Threw (CastError path), st)
        | inl fields, inl _id =>
            match findByIdAndUpdate id _id fields st with
            | inl (Some updated, st') =>
                (Responded (res_json
                   (JMessageProduct "Product updated" id updated)), st')
            | inl (None, st') =>
                (Responded (res_status_json 404
                   (JError "Product not found")), st')
            | inr e => (Threw e, st)
            end
        end
    end.

(** [DELETE /products/:id]; [raw_id] is [req.params.id]. *)
Definition deleteProduct (raw_id : string) (st : Store) : outcome * Store :=
  match castObjectId raw_id with
  | None => (Threw (CastError "_id"), st)
  | Some id =>
      (Responded (res_json (JMessage "Product deleted")),
       findByIdAndDelete id st)
  end.

(** [POST /cart].  [findById] casts the body's productId first.  The
    errors the route's chains record are never read, so they have no part
    in the handler. *)
Definition addToCart (b : CartBody) (st : Store) : outcome * Store :=
  let userId := body_userId b in
  let quantity := body_quantity b in
  match castObjectId (body_productId b) with
  | None => (Threw (CastError "_id"), st)
  | Some productId =>
      match findById productId st with
      | Some product =>
          if PrimFloat.ltb (stock product) quantity then
            (Responded (res_status_json 400
               (JError "Insufficient stock or product not found")), st)
          else
            let cartItem := mkCartLine userId productId quantity in
            match save_cartItem cartItem st with
            | inl st' => (Responded (res_json (JMessage "Added to cart")), st')
            | inr e => (Threw e, st)
            end
      | None =>
          (Responded (res_status_json 400
             (JError "Insufficient stock or product not found")), st)
      end
  end.

(** The [for (let item of items)] loop of [POST /cart/purchase]: [inl] is
    the store when the loop runs to its end, [inr] the outcome and the
    store at an early exit. *)
Fixpoint purchase_loop (items : list CartLine) (st : Store)
  : Store + outcome * Store :=
  match items with
  | [] => inl st
  | item :: rest =>
      match findById (productId item) st with
      | Some product =>
          if PrimFloat.leb (quantity item) (stock product) then
            let product' :=
              mkProduct (name product) (price product)
                        (PrimFloat.sub (stock product) (quantity item)) in
            match save_product (productId item) product' st with
            | inl st' => purchase_loop rest st'
            | inr e => inr (Threw e, st)
            end
          else
            inr (Responded (res_status_json 400
                   (JError ("Insufficient stock for " ++ name product))), st)
      | None =>
          (* `Insufficient stock for ${product.name}` with product null *)
          inr (Threw (TypeError "Cannot read properties of null (reading 'name')"), st)
      end
  end.

(** [POST /cart/purchase] *)
Definition purchase (uid : string) (st : Store) : outcome * Store :=
  let items := Cart_find uid st in
  match purchase_loop items st with
  | inl st' =>
      (Responded (res_json (JText "Purchase successful!")), Cart_deleteMany uid st')
  | inr early => early
  end.

(** *** Vocabulary *)

(** A product body that passes the chains: a name, a price whose text is
    a decimal numeral, a stock whose text is an integer numeral not below
    zero. *)
Definition accepted_product_body (b : ProductBody) : Prop :=
  body_name b ≠ "" ∧
  decimal_numeral (text (body_price b)) ∧
  ∃ z, integer_numeral (text (body_stock b)) z ∧ (0 ≤ z)%Z.

(** What settlement does to the product of one line. *)
Definition decrement (l : CartLine) (ps : gmap string Product)
  : gmap string Product :=
  alter (fun p => mkProduct (name p) (price p)
                            (PrimFloat.sub (stock p) (quantity l)))
        (productId l) ps.

(** Every line passes its stock check when the lines are taken in order,
    each one against the stock the lines before it have left. *)
Fixpoint lines_pass (items : list CartLine) (ps : gmap string Product) : Prop :=
  match items with
  | [] => True
  | l :: rest =>
      (∃ p, ps !! productId l = Some p ∧
            PrimFloat.leb (quantity l) (stock p) = true) ∧
      lines_pass rest (decrement l ps)
  end.

(** No decrement, taken in the same order, leaves NaN.  (An infinite
    stock less an infinite quantity would.) *)
Fixpoint decrements_are_numbers (items : list CartLine)
    (ps : gmap string Product) : Prop :=
  match items with
  | [] => True
  | l :: rest =>
      (∀ p, ps !! productId l = Some p →
            PrimFloat.is_nan (PrimFloat.sub (stock p) (quantity l)) = false) ∧
      decrements_are_numbers rest (decrement l ps)
  end.

(** No line asks for an infinite quantity. *)
Definition no_infinite_quantity (items : list CartLine) : Prop :=
  ∀ l, l ∈ items → PrimFloat.is_infinity (quantity l) = false.


Definition purchase_ok : outcome :=
  Responded (res_json (JText "Purchase successful!")).

Definition added_ok : outcome :=
  Responded (res_json (JMessage "Added to cart")).

(** *** Sample requests and a database with real ids *)

Definition idA : ObjectId := "64b7f0c2a1d3e4f5a6b7c8d9".
Definition idB : ObjectId := "64b7f0c2a1d3e4f5a6b7c8da".
Definition idC : ObjectId := "64b7f0c2a1d3e4f5a6b7c8db".
Definition idD : ObjectId := "64b7f0c2a1d3e4f5a6b7c8dc".

Definition productA : Product := mkProduct "Product A" 10 10.
Definition productB : Product := mkProduct "Product B" 20 50.

(** Two products; user "u" holds one line: three of product A, whose
    stock is 10. *)
Definition hex_store : Store :=
  {| products := <[idA := productA]> (<[idB := productB]> ∅);
     users := [];
     cart := [mkCartLine "u" idA 3] |}.

(** User "u" holds a line that asks for more of product A than there is,
    after a line that passes. *)
Definition short_store : Store :=
  set_cart [mkCartLine "u" idB 5; mkCartLine "u" idA 11] hex_store.

(** No cart line. *)
Definition idle_store : Store := set_cart [] hex_store.

(** The doubles nearest to 0.1 and to 9.9. *)
Definition tenth : float := PrimFloat.div 1 10.
Definition nine_point_nine : float := PrimFloat.div 99 10.

(** User "u" holds a line of a tenth of product A. *)
Definition tenth_store : Store :=
  set_cart [mkCartLine "u" idA tenth] hex_store.

(** The JSON number 12.5, the JSON string "8", the JSON number 1e-7 and
    the JSON number 1e21. *)
Definition price_12_5 : field := mkField "12.5" (Some 12.5%float).
Definition stock_8 : field := mkField "8" (Some 8%float).

Definition good_body : ProductBody :=
  mkProductBody None "Product C" price_12_5 stock_8.
(** A body that brings the [_id] of product A. *)
Definition taken_id_body : ProductBody :=
  mkProductBody (Some idA) "Product C" price_12_5 stock_8.

End Double.

(** ** Validators *)

Lemma is_integer_spec (q : Q) :
  is_integer q = true ↔ ∃ z : Z, (q == inject_Z z)%Q.
Proof.
  unfold is_integer, Qeq. destruct q as [n d]; simpl.
  rewrite Z.eqb_eq, Z.mul_1_r. split.
  - intros Hm. exists (n / Z.pos d)%Z.
    pose proof (Z.div_mod n (Z.pos d)) as Hd. lia.
  - intros [z ->]. apply Z.mod_mul. lia.
Qed.

Lemma isInt_spec (m : Z) (v : option Q) :
  isInt m v = true ↔ ∃ q z, v = Some q ∧ (q == inject_Z z)%Q ∧ (m ≤ z)%Z.
Proof.
  destruct v as [q|]; simpl.
  - rewrite andb_true_iff, is_integer_spec, Qle_bool_iff. split.
    + intros [[z Hz] Hle]. exists q, z. repeat split; [done|].
      rewrite Hz in Hle. by rewrite Zle_Qle.
    + intros (q' & z & [= <-] & Hz & Hle). split; [by exists z|].
      rewrite Hz. by rewrite <- Zle_Qle.
  - split; [done|]. by intros (? & ? & ? & _).
Qed.

Lemma notEmpty_spec (s : string) : notEmpty s = true ↔ s ≠ "".
Proof. destruct s; simpl; split; congruence. Qed.

Lemma isNumeric_spec (v : option Q) : isNumeric v = true ↔ is_number v.
Proof.
  destruct v; simpl; split; try done.
  - by eexists.
  - by intros [? ?].
Qed.

Lemma check_nil (ok : bool) (f m : string) : check ok f m = [] ↔ ok = true.
Proof. destruct ok; simpl; split; congruence. Qed.

Lemma product_chains_nil (b : ProductBody) :
  product_chains b = [] ↔ valid_product_input b.
Proof.
  unfold product_chains, valid_product_input.
  rewrite <- notEmpty_spec, <- isNumeric_spec.
  unfold is_nonneg_integer. rewrite <- (isInt_spec 0).
  split.
  - intros H. apply app_eq_nil in H as [H1 H]. apply app_eq_nil in H as [H2 H3].
    by rewrite check_nil in H1, H2, H3.
  - intros (H1 & H2 & H3). by rewrite H1, H2, H3.
Qed.

Lemma isEmpty_true {A} (l : list A) : isEmpty l = true ↔ l = [].
Proof. destruct l; simpl; split; congruence. Qed.

Lemma invalid_product_input (b : ProductBody) :
  ¬ valid_product_input b ↔
  body_name b = "" ∨ ¬ is_number (body_price b) ∨ ¬ is_nonneg_integer (body_stock b).
Proof.
  unfold valid_product_input. split.
  - intros Hn.
    destruct (decide (body_name b = "")) as [|Hname]; [by left|].
    destruct (isNumeric (body_price b)) eqn:Hp.
    + right; right. intros Hs. apply Hn. by rewrite <- isNumeric_spec.
    + right; left. rewrite <- isNumeric_spec. congruence.
  - intros [H | [H | H]] (H1 & H2 & H3); contradiction.
Qed.

(** ** Catalogue *)

Lemma new_Product_valid (b : ProductBody) :
  valid_product_input b →
  ∃ p, new_Product b = inl p ∧ name p = body_name b ∧
       Some (price p) = body_price b ∧ Some (stock p) = body_stock b.
Proof.
  intros (_ & [q Hq] & (s & z & Hs & _)). unfold new_Product.
  rewrite Hq, Hs. by eexists.
Qed.

Lemma createProduct_invalid (b : ProductBody) (st : Store) :
  ¬ valid_product_input b →
  createProduct b st =
    (Responded (res_status_json 400 (JErrors (product_chains b))), st) ∧
  product_chains b ≠ [].
Proof.
  intros Hn. rewrite <- product_chains_nil in Hn. unfold createProduct.
  by destruct (product_chains b).
Qed.

Lemma createProduct_valid (b : ProductBody) (st : Store) :
  valid_product_input b →
  ∃ p, new_Product b = inl p ∧
       createProduct b st =
         (Responded (res_json (JMessageProduct "Product created" (new_ObjectId st) p)),
          save_new_product (new_ObjectId st) p st).
Proof.
  intros Hv. destruct (new_Product_valid b Hv) as (p & Hp & _).
  exists p. split; [done|]. unfold createProduct.
  apply product_chains_nil in Hv. by rewrite Hv, Hp.
Qed.

Lemma updateProduct_valid (id : ObjectId) (b : ProductBody) (st : Store) :
  valid_product_input b →
  ∃ p, new_Product b = inl p ∧
       updateProduct id b st =
         match products st !! id with
         | Some _ =>
             (Responded (res_json (JMessageProduct "Product updated" id p)),
              set_products (<[id := p]> (products st)) st)
         | None => (Responded (res_status_json 404 (JError "Product not found")), st)
         end.
Proof.
  intros Hv. destruct (new_Product_valid b Hv) as (p & Hp & _).
  exists p. split; [done|]. unfold updateProduct, findByIdAndUpdate.
  apply product_chains_nil in Hv. rewrite Hv, Hp. simpl.
  by destruct (products st !! id).
Qed.

(** ** Credential check *)

Lemma findOne_user_Some (un pw : string) (st : Store) (u : User) :
  findOne_user un pw st = Some u → u ∈ users st ∧ credentials_match un pw u.
Proof.
  unfold findOne_user, credentials_match. intros H.
  apply find_some in H as [Hin Hb]. apply andb_true_iff in Hb as [H1 H2].
  apply bool_decide_eq_true in H1, H2. by rewrite list_elem_of_In.
Qed.

Lemma findOne_user_None (un pw : string) (st : Store) :
  findOne_user un pw st = None ↔
  ¬ ∃ u, u ∈ users st ∧ credentials_match un pw u.
Proof.
  unfold findOne_user, credentials_match. split.
  - intros H (u & Hin & <- & <-).
    apply list_elem_of_In in Hin. pose proof (find_none _ _ H u Hin) as Hb.
    simpl in Hb. by rewrite !bool_decide_eq_true_2 in Hb.
  - intros Hn.
    destruct (find _ (users st)) as [u|] eqn:Hf; [|done].
    exfalso. apply Hn. exists u. by apply findOne_user_Some.
Qed.

(** C7. [login] answers Unauthorized exactly when no stored user has both
    the submitted username and the submitted password.  When some user has
    both, the answer is the role of such a user.  In particular, when every
    user with the submitted username has another password, the answer is
    Unauthorized. *)
Theorem login_unauthorized_iff_no_match (un pw : string) (st : Store) :
  (classify (login un pw st).1 = Some Unauthorized ↔
     ¬ ∃ u, u ∈ users st ∧ credentials_match un pw u) ∧
  ((∃ u, u ∈ users st ∧ credentials_match un pw u) →
     ∃ u, u ∈ users st ∧ credentials_match un pw u ∧
          (login un pw st).1 = Responded (res_json (JRole (role u)))) ∧
  ((∀ u, u ∈ users st → username u = un → password u ≠ pw) →
     (login un pw st).1 =
       Responded (res_status_json 401 (JError "Invalid credentials"))) ∧
  (login un pw st).2 = st.
Proof.
  rewrite <- findOne_user_None. unfold login.
  destruct (findOne_user un pw st) as [u|] eqn:Hf; simpl.
  - apply findOne_user_Some in Hf as [Hin Hm].
    repeat split; try done.
    + intros _. by exists u.
    + intros Hall. destruct Hm as [Hu Hp]. by destruct (Hall u Hin Hu).
  - repeat split; try done.
    intros (u & Hin & Hm). exfalso.
    apply findOne_user_None in Hf. apply Hf. by exists u.
Qed.

(** ** Cart accumulation *)

(** The three ways [addToCart] ends; none of them is a ValidationError. *)
Lemma addToCart_cases (b : CartBody) (st : Store) :
  (findById (body_productId b) st = None ∧
   addToCart b st =
     (Responded (res_status_json 400
        (JError "Insufficient stock or product not found")), st)) ∨
  (∃ p, findById (body_productId b) st = Some p ∧
        (stock p < body_quantity b)%Q ∧
        addToCart b st =
          (Responded (res_status_json 400
             (JError "Insufficient stock or product not found")), st)) ∨
  (∃ p, findById (body_productId b) st = Some p ∧
        (body_quantity b <= stock p)%Q ∧
        addToCart b st =
          (Responded (res_json (JMessage "Added to cart")),
           set_cart (cart st ++
             [mkCartLine (body_userId b) (body_productId b) (body_quantity b)]) st)).
Proof.
  unfold addToCart, js_lt, save_cartItem.
  destruct (findById (body_productId b) st) as [p|]; [|by left].
  right. destruct (Qle_bool (body_quantity b) (stock p)) eqn:Hle; simpl.
  - right. exists p. by rewrite <- Qle_bool_iff.
  - left. exists p. repeat split; try done.
    apply Qnot_le_lt. rewrite <- Qle_bool_iff. congruence.
Qed.

Lemma addToCart_keeps_products_aux (b : CartBody) (st : Store) :
  (addToCart b st).2 = st ∨
  (addToCart b st).2 =
    set_cart (cart st ++
      [mkCartLine (body_userId b) (body_productId b) (body_quantity b)]) st.
Proof.
  destruct (addToCart_cases b st) as [[_ ->] | [(p & _ & _ & ->) | (p & _ & _ & ->)]];
    simpl; auto.
Qed.

(** C10. [addToCart] leaves the product collection (and the users) as it
    found them on every request; the only change it can make is one new
    line at the end of the cart collection. *)
Theorem addToCart_keeps_products (b : CartBody) (st : Store) :
  products (addToCart b st).2 = products st ∧
  users (addToCart b st).2 = users st ∧
  (cart (addToCart b st).2 = cart st ∨
   cart (addToCart b st).2 =
     (cart st ++
        [mkCartLine (body_userId b) (body_productId b) (body_quantity b)])%list).
Proof.
  destruct (addToCart_keeps_products_aux b st) as [-> | ->]; simpl; auto.
Qed.

(** ** Checkout settlement *)

Lemma save_product_decrement (l : CartLine) (p : Product) (st : Store) :
  products st !! productId l = Some p →
  save_product (productId l)
    (mkProduct (name p) (price p) (stock p - quantity l)) st =
  set_products (decrement l (products st)) st.
Proof.
  intros Hp. unfold save_product, decrement. f_equal.
  apply map_eq. intros j. rewrite lookup_insert, lookup_alter.
  case_decide; [subst j; by rewrite Hp | done].
Qed.

Lemma set_products_twice (m1 m2 : gmap string Product) (st : Store) :
  set_products m2 (set_products m1 st) = set_products m2 st.
Proof. done. Qed.

Lemma set_products_id (st : Store) : set_products (products st) st = st.
Proof. by destruct st. Qed.

(** The loop over a prefix of lines that all pass. *)
Lemma purchase_loop_app (pre post : list CartLine) (st : Store) :
  lines_pass pre (products st) →
  purchase_loop (pre ++ post) st =
  purchase_loop post
    (set_products (foldl (flip decrement) (products st) pre) st).
Proof.
  revert st. induction pre as [|l pre IH]; intros st Hpass; simpl.
  - by rewrite set_products_id.
  - destruct Hpass as [(p & Hp & Hle) Hrest].
    unfold findById. rewrite Hp. unfold js_ge.
    apply Qle_bool_iff in Hle. rewrite Hle.
    rewrite (save_product_decrement l p st Hp).
    rewrite IH by done. simpl. by rewrite set_products_twice.
Qed.

Lemma purchase_loop_pass (items : list CartLine) (st : Store) :
  lines_pass items (products st) →
  purchase_loop items st =
  inl (set_products (foldl (flip decrement) (products st) items) st).
Proof.
  intros Hpass. rewrite <- (app_nil_r items) at 1.
  by rewrite purchase_loop_app.
Qed.

(** The loop runs to its end only when every line passes. *)
Lemma purchase_loop_inl (items : list CartLine) (st st' : Store) :
  purchase_loop items st = inl st' → lines_pass items (products st).
Proof.
  revert st. induction items as [|l items IH]; intros st; simpl; [done|].
  unfold findById, js_ge.
  destruct (products st !! productId l) as [p|] eqn:Hp; [|done].
  destruct (Qle_bool (quantity l) (stock p)) eqn:Hle; [|done].
  intros H. split.
  - exists p. by rewrite <- Qle_bool_iff.
  - rewrite (save_product_decrement l p st Hp) in H. by apply IH in H.
Qed.

(** What the decrements of a list of lines add up to for one product. *)
Lemma decrement_all_lookup (items : list CartLine) (m : gmap string Product)
    (id : ObjectId) :
  match m !! id with
  | Some p =>
      ∃ p', foldl (flip decrement) m items !! id = Some p' ∧
            name p' = name p ∧ price p' = price p ∧
            (stock p' == stock p - ordered id items)%Q
  | None => foldl (flip decrement) m items !! id = None
  end.
Proof.
  revert m. induction items as [|l items IH]; intros m; simpl.
  - destruct (m !! id) as [p|]; [|done].
    exists p. repeat split; try done. lra.
  - specialize (IH (decrement l m)).
    change (flip decrement m l) with (decrement l m).
    unfold decrement at 1 in IH. rewrite lookup_alter in IH.
    destruct (decide (productId l = id)) as [Heq | Hne].
    + rewrite Heq in IH.
      destruct (m !! id) as [p|]; simpl in IH; [|done].
      destruct IH as (p' & Hl & Hn & Hpr & Hs).
      exists p'. repeat split; try done. rewrite Hs. lra.
    + destruct (m !! id) as [p|]; simpl in IH; done.
Qed.

Lemma filter_other_users (uid : string) (c : list CartLine) :
  filter (fun l => userId l = uid) c = [] →
  filter (fun l => userId l ≠ uid) c = c.
Proof.
  induction c as [|l c IH]; [done|].
  rewrite !filter_cons. destruct (decide (userId l = uid)) as [He | Hn].
  - done.
  - intros H. rewrite decide_True by done. f_equal. by apply IH.
Qed.

Lemma filter_own_after_delete (uid : string) (c : list CartLine) :
  filter (fun l => userId l = uid) (filter (fun l => userId l ≠ uid) c) = [].
Proof.
  induction c as [|l c IH]; [done|].
  rewrite filter_cons. destruct (decide (userId l ≠ uid)) as [Hn | He]; [|done].
  rewrite filter_cons. by rewrite decide_False.
Qed.

(** C9. For a user without cart lines, checkout reports success and the
    store afterwards is the store before: every product record and every
    cart line, which are all other users', are unchanged. *)
Theorem purchase_empty_cart (uid : string) (st : Store) :
  Cart_find uid st = [] →
  purchase uid st = (Responded (res_json (JText "Purchase successful!")), st).
Proof.
  intros Hempty. unfold purchase. rewrite Hempty. simpl.
  unfold Cart_deleteMany. unfold Cart_find in Hempty.
  rewrite (filter_other_users _ _ Hempty). by destruct st.
Qed.

(** At the first line whose product no longer exists the handler throws
    while it builds the error message, and sends no response; the
    decrements of the lines before it stay, and the cart is not touched. *)
Lemma purchase_throws_on_missing_product
    (uid : string) (st : Store) (pre post : list CartLine) (l : CartLine) :
  Cart_find uid st = (pre ++ l :: post)%list →
  lines_pass pre (products st) →
  foldl (flip decrement) (products st) pre !! productId l = None →
  purchase uid st =
    (Threw (TypeError "Cannot read properties of null (reading 'name')"),
     set_products (foldl (flip decrement) (products st) pre) st).
Proof.
  intros Hfind Hpass Hp. unfold purchase.
  rewrite Hfind, purchase_loop_app by done. simpl.
  unfold findById. simpl. by rewrite Hp.
Qed.

(** ** Stock never goes below zero *)

Lemma purchase_loop_stock_nonneg (items : list CartLine) (st : Store) :
  stock_nonneg st →
  match purchase_loop items st with
  | inl st' => stock_nonneg st'
  | inr (_, st') => stock_nonneg st'
  end.
Proof.
  revert st. induction items as [|l items IH]; intros st Hst; simpl; [done|].
  unfold findById, js_ge.
  destruct (products st !! productId l) as [p|] eqn:Hp; [|done].
  destruct (Qle_bool (quantity l) (stock p)) eqn:Hle; [|done].
  apply IH. intros id q. unfold save_product, set_products. simpl.
  rewrite lookup_insert. case_decide.
  - intros [= <-]. simpl. apply Qle_bool_iff in Hle. lra.
  - apply Hst.
Qed.

Lemma set_cart_stock_nonneg (c : list CartLine) (st : Store) :
  stock_nonneg st → stock_nonneg (set_cart c st).
Proof. done. Qed.

Lemma valid_stock_nonneg (b : ProductBody) (p : Product) :
  valid_product_input b → new_Product b = inl p → (0 <= stock p)%Q.
Proof.
  intros Hv Hp. destruct (new_Product_valid b Hv) as (p' & Hp' & _ & _ & Hs).
  assert (p' = p) as -> by congruence.
  destruct Hv as (_ & _ & (q & z & Hq & Hz & Hle)).
  rewrite Hq in Hs. injection Hs as ->. rewrite Hz.
  by rewrite Zle_Qle in Hle.
Qed.

(** Under one-request-at-a-time execution every route keeps every stock at
    zero or above. *)
Lemma app_stock_nonneg (r : request) (st : Store) :
  stock_nonneg st → stock_nonneg (app r st).2.
Proof.
  intros Hst. destruct r as [un pw | | b | id b | id | b | uid]; simpl.
  - unfold login. by destruct (findOne_user un pw st).
  - done.
  - destruct (decide (product_chains b = [])) as [Hnil | Hne].
    + apply product_chains_nil in Hnil as Hv.
      destruct (createProduct_valid b st Hv) as (p & Hp & ->).
      unfold stock_nonneg, save_new_product. simpl.
      intros j q. rewrite lookup_insert. case_decide.
      * intros [= <-]. by apply (valid_stock_nonneg b).
      * apply Hst.
    + rewrite product_chains_nil in Hne.
      by destruct (createProduct_invalid b st Hne) as [-> _].
  - destruct (decide (product_chains b = [])) as [Hnil | Hne].
    + apply product_chains_nil in Hnil as Hv.
      destruct (updateProduct_valid id b st Hv) as (p & Hp & ->).
      destruct (products st !! id); [|done].
      unfold stock_nonneg, set_products. simpl.
      intros j q. rewrite lookup_insert. case_decide.
      * intros [= <-]. by apply (valid_stock_nonneg b).
      * apply Hst.
    + unfold updateProduct. by destruct (product_chains b).
  - unfold stock_nonneg, findByIdAndDelete, set_products. simpl.
    intros j q. rewrite lookup_delete. case_decide; [done | apply Hst].
  - destruct (addToCart_keeps_products_aux b st) as [-> | ->]; done.
  - unfold purchase.
    pose proof (purchase_loop_stock_nonneg (Cart_find uid st) st Hst) as H.
    destruct (purchase_loop (Cart_find uid st) st) as [st' | [o st']]; done.
Qed.

(** X25. Whatever requests are served one after the other, on a store
    where no stock is below zero, no stock is below zero afterwards. *)
Lemma serve_stock_nonneg (rs : list request) (st : Store) :
  stock_nonneg st → stock_nonneg (serve rs st).
Proof.
  revert st. induction rs as [|r rs IH]; intros st Hst; simpl; [done|].
  apply IH. by apply app_stock_nonneg.
Qed.

(** ** The routes on the sample databases *)

(** Decides a property of every product of a store given by inserts. *)
Ltac each_product :=
  intros ? ?; simpl;
  repeat (rewrite lookup_insert; case_decide; [intros [= <-]; by vm_compute|]);
  by rewrite lookup_empty.

Lemma sample_store_integer : stock_integer sample_store.
Proof. unfold stock_integer, sample_store. each_product. Qed.

Lemma sample_store_nonneg : stock_nonneg sample_store.
Proof. unfold stock_nonneg, sample_store. each_product. Qed.

Lemma purchase_empty_cart_witness :
  Cart_find "u" sample_store = [] ∧
  purchase "u" sample_store =
    (Responded (res_json (JText "Purchase successful!")), sample_store).
Proof.
  split; [reflexivity | apply purchase_empty_cart; reflexivity].
Defined.

(** A line that is short of stock: the answer names the product, the
    decrement of the line before it stays, the cart keeps every line. *)
Example purchase_short_store :
  (purchase "u" short_store).1 =
    Responded (res_status_json 400 (JError "Insufficient stock for Product A")) ∧
  classify (purchase "u" short_store).1 = Some InsufficientStock ∧
  products (purchase "u" short_store).2 !! "p2" =
    Some (mkProduct "Product B" 20 45) ∧
  products (purchase "u" short_store).2 !! "p1" = Some productA ∧
  cart (purchase "u" short_store).2 = cart short_store.
Proof. repeat split; by vm_compute. Qed.

(** C1. Checkout of a cart whose second line references a deleted product.
    The specification asks for an InsufficientStock answer at that line;
    the handler reads [product.name] of the missing product and throws a
    TypeError instead, so no error response is sent.  The decrement of the
    first line stays applied and the cart keeps all its lines. *)
Theorem purchase_dangling_line_throws :
  Cart_find "u" dangling_store =
    [mkCartLine "u" "p1" 3; mkCartLine "u" "gone" 1] ∧
  products dangling_store !! "gone" = None ∧
  (purchase "u" dangling_store).1 =
    Threw (TypeError "Cannot read properties of null (reading 'name')") ∧
  classify (purchase "u" dangling_store).1 = None ∧
  products (purchase "u" dangling_store).2 !! "p1" =
    Some (mkProduct "Product A" 10 7) ∧
  cart (purchase "u" dangling_store).2 = cart dangling_store.
Proof. repeat split; by vm_compute. Qed.

(** [addToCart] answers with an InsufficientStock error or with success,
    never with a ValidationError. *)
Lemma addToCart_no_ValidationError (b : CartBody) (st : Store) :
  classify (addToCart b st).1 = Some InsufficientStock ∨
  classify (addToCart b st).1 = None.
Proof.
  destruct (addToCart_cases b st) as [[_ ->] | [(p & _ & _ & ->) | (p & _ & _ & ->)]];
    simpl; auto.
Qed.

(** Stock 5 and quantity 6: InsufficientStock. *)
Lemma addToCart_five_six (b : CartBody) (st : Store) (p : Product) :
  findById (body_productId b) st = Some p →
  stock p = 5%Q → body_quantity b = 6%Q →
  classify (addToCart b st).1 = Some InsufficientStock ∧ (addToCart b st).2 = st.
Proof.
  intros Hp Hs Hq. unfold addToCart. by rewrite Hp, Hs, Hq.
Qed.

(** C3. [addToCart] with quantity 0, and with an empty userId.  The
    specification asks for a ValidationError; the chains of the route do
    flag the field, but the handler never reads their result: it answers
    "Added to cart" and stores the line. *)
Theorem addToCart_ignores_chains :
  cart_chains zero_quantity_body =
    [mkFieldError "quantity" "Quantity must be at least 1"] ∧
  addToCart zero_quantity_body sample_store =
    (Responded (res_json (JMessage "Added to cart")),
     set_cart [mkCartLine "u" "p1" 0] sample_store) ∧
  cart_chains no_user_body = [mkFieldError "userId" "User ID required"] ∧
  addToCart no_user_body sample_store =
    (Responded (res_json (JMessage "Added to cart")),
     set_cart [mkCartLine "" "p1" 1] sample_store).
Proof. repeat split; by vm_compute. Qed.

(** C8. A cart request with quantity 3/2, then checkout.  The
    specification asks that every stock stays a non-negative integer; the
    quantity is flagged by the route's chain but accepted by the handler,
    and checkout then leaves product "p1" with stock 17/2, which is not an
    integer.  (No stock goes below zero: [app_stock_nonneg].) *)
Theorem fractional_quantity_fractional_stock :
  stock_integer sample_store ∧
  stock_nonneg sample_store ∧
  cart_chains fractional_body =
    [mkFieldError "quantity" "Quantity must be at least 1"] ∧
  (app (PostCart fractional_body) sample_store).1 =
    Responded (res_json (JMessage "Added to cart")) ∧
  (app (PostCartPurchase "u") (serve [PostCart fractional_body] sample_store)).1 =
    Responded (res_json (JText "Purchase successful!")) ∧
  products (serve [PostCart fractional_body; PostCartPurchase "u"] sample_store)
    !! "p1" = Some (mkProduct "Product A" 10 (17 # 2)) ∧
  is_integer (17 # 2) = false.
Proof.
  split; [exact sample_store_integer|]. split; [exact sample_store_nonneg|].
  repeat split; by vm_compute.
Qed.

(** ** Checkout settlement, every exit *)

(** How far the loop gets: it applies the decrements of the longest prefix
    of lines that pass, and ends at the end of the list, at a line that is
    short of stock, or at a line whose product is missing. *)
Lemma purchase_loop_result (items : list CartLine) (st : Store) :
  ∃ pre post,
    items = (pre ++ post)%list ∧
    lines_pass pre (products st) ∧
    match post with
    | [] =>
        purchase_loop items st =
          inl (set_products (foldl (flip decrement) (products st) pre) st)
    | l :: _ =>
        match foldl (flip decrement) (products st) pre !! productId l with
        | Some p =>
            (stock p < quantity l)%Q ∧
            purchase_loop items st =
              inr (Responded (res_status_json 400
                     (JError ("Insufficient stock for " ++ name p))),
                   set_products (foldl (flip decrement) (products st) pre) st)
        | None =>
            purchase_loop items st =
              inr (Threw (TypeError "Cannot read properties of null (reading 'name')"),
                   set_products (foldl (flip decrement) (products st) pre) st)
        end
    end.
Proof.
  revert st. induction items as [|l items IH]; intros st.
  - exists [], []. simpl. by rewrite set_products_id.
  - simpl. unfold findById, js_ge.
    destruct (products st !! productId l) as [p|] eqn:Hp.
    + destruct (Qle_bool (quantity l) (stock p)) eqn:Hle.
      * rewrite (save_product_decrement l p st Hp).
        destruct (IH (set_products (decrement l (products st)) st))
          as (pre & post & -> & Hpass & Hres).
        exists (l :: pre), post. split; [done|]. split.
        { split; [|done]. exists p. by rewrite <- Qle_bool_iff. }
        simpl in *. destruct post as [|l' post]; [done|].
        by destruct (foldl (flip decrement) (decrement l (products st)) pre
                       !! productId l').
      * exists [], (l :: items). simpl. rewrite Hp, set_products_id.
        repeat split; try done.
        apply Qnot_le_lt. rewrite <- Qle_bool_iff. congruence.
    + exists [], (l :: items). simpl. by rewrite Hp, set_products_id.
Qed.

Lemma decrement_all_is_Some (items : list CartLine) (m : gmap string Product)
    (id : ObjectId) :
  is_Some (foldl (flip decrement) m items !! id) ↔ is_Some (m !! id).
Proof.
  pose proof (decrement_all_lookup items m id) as H.
  destruct (m !! id) as [p|].
  - destruct H as (p' & -> & _). split; by eexists.
  - rewrite H. done.
Qed.

Lemma decrement_all_unreferenced (items : list CartLine)
    (m : gmap string Product) (id : ObjectId) :
  (∀ l, l ∈ items → productId l ≠ id) →
  foldl (flip decrement) m items !! id = m !! id.
Proof.
  revert m. induction items as [|l items IH]; intros m Hno; simpl; [done|].
  rewrite IH.
  - unfold flip, decrement. apply lookup_alter_ne. apply Hno. by left.
  - intros l' Hl'. apply Hno. by right.
Qed.

Lemma ordered_nonneg (id : ObjectId) (items : list CartLine) :
  (∀ l, l ∈ items → (0 <= quantity l)%Q) → (0 <= ordered id items)%Q.
Proof.
  induction items as [|l items IH]; intros Hq; simpl; [lra|].
  assert (0 <= quantity l)%Q by (apply Hq; by left).
  assert (0 <= ordered id items)%Q by (apply IH; intros l' ?; apply Hq; by right).
  case_decide; lra.
Qed.

Lemma filter_other_users_idem (uid : string) (c : list CartLine) :
  filter (fun l => userId l ≠ uid) (filter (fun l => userId l ≠ uid) c) =
  filter (fun l => userId l ≠ uid) c.
Proof.
  induction c as [|l c IH]; [done|].
  rewrite filter_cons. case_decide; [|done].
  rewrite filter_cons, decide_True by done. by f_equal.
Qed.

(** The store a checkout leaves: the products after the decrements of a
    prefix of the user's lines, and either the old cart or the old cart
    without the user's lines. *)
Lemma purchase_store (uid : string) (st : Store) :
  ∃ pre post,
    Cart_find uid st = (pre ++ post)%list ∧
    lines_pass pre (products st) ∧
    products (purchase uid st).2 = foldl (flip decrement) (products st) pre ∧
    users (purchase uid st).2 = users st ∧
    issued (purchase uid st).2 = issued st ∧
    (cart (purchase uid st).2 = cart st ∨
     cart (purchase uid st).2 = filter (fun l => userId l ≠ uid) (cart st)).
Proof.
  destruct (purchase_loop_result (Cart_find uid st) st)
    as (pre & post & Hitems & Hpass & Hres).
  exists pre, post. split; [done|]. split; [done|].
  unfold purchase. destruct post as [|l post].
  - rewrite Hres. simpl. auto.
  - destruct (foldl (flip decrement) (products st) pre !! productId l) as [p|].
    + destruct Hres as [_ ->]. simpl. auto.
    + rewrite Hres. simpl. auto.
Qed.

(** Checkout with no line to process. *)
Lemma purchase_no_lines (uid : string) (st : Store) :
  Cart_find uid st = [] → purchase uid st = (purchase_ok, st).
Proof.
  intros Hempty. unfold purchase. rewrite Hempty. simpl.
  unfold Cart_deleteMany. unfold Cart_find in Hempty.
  rewrite (filter_other_users _ _ Hempty). by destruct st.
Qed.

(** X2. Whatever its outcome, checkout creates and deletes no product,
    changes no product's name or price, leaves alone every product that
    none of the user's lines references, keeps the users, and keeps every
    cart line of every other user. *)
Theorem purchase_frame (uid : string) (st : Store) :
  dom (products (purchase uid st).2) = dom (products st) ∧
  (∀ id p, products st !! id = Some p →
     ∃ p', products (purchase uid st).2 !! id = Some p' ∧
           name p' = name p ∧ price p' = price p) ∧
  (∀ id, (∀ l, l ∈ Cart_find uid st → productId l ≠ id) →
     products (purchase uid st).2 !! id = products st !! id) ∧
  users (purchase uid st).2 = users st ∧
  filter (fun l => userId l ≠ uid) (cart (purchase uid st).2) =
    filter (fun l => userId l ≠ uid) (cart st).
Proof.
  destruct (purchase_store uid st)
    as (pre & post & Hitems & _ & -> & -> & _ & Hcart).
  split; [|split; [|split; [|split]]].
  - apply set_eq. intros id. rewrite !elem_of_dom. apply decrement_all_is_Some.
  - intros id p Hp.
    pose proof (decrement_all_lookup pre (products st) id) as H.
    rewrite Hp in H. destruct H as (p' & ? & ? & ? & _). by exists p'.
  - intros id Hno. apply decrement_all_unreferenced.
    intros l Hl. apply Hno. rewrite Hitems. apply elem_of_app. by left.
  - done.
  - destruct Hcart as [-> | ->]; [done | apply filter_other_users_idem].
Qed.

(** X3. After a checkout that succeeded, a second checkout of the same user
    succeeds again and changes nothing. *)
Theorem purchase_twice (uid : string) (st : Store) :
  (purchase uid st).1 = purchase_ok →
  purchase uid (purchase uid st).2 = (purchase_ok, (purchase uid st).2).
Proof.
  intros Hok. apply purchase_no_lines.
  revert Hok. unfold purchase.
  destruct (purchase_loop (Cart_find uid st) st) as [st' | [o st']] eqn:Hloop.
  - intros _. simpl. apply filter_own_after_delete.
  - simpl. intros ->.
    destruct (purchase_loop_result (Cart_find uid st) st)
      as (pre & post & _ & _ & Hres).
    destruct post as [|l post]; [congruence|].
    destruct (foldl (flip decrement) (products st) pre !! productId l);
      [destruct Hres as [_ Hres]|]; rewrite Hres in Hloop; discriminate.
Qed.

(** X4. When none of the user's lines has a negative quantity, checkout
    raises no product's stock, whatever its outcome. *)
Theorem purchase_never_raises_stock (uid : string) (st : Store) :
  (∀ l, l ∈ Cart_find uid st → (0 <= quantity l)%Q) →
  ∀ id p p',
    products st !! id = Some p →
    products (purchase uid st).2 !! id = Some p' →
    (stock p' <= stock p)%Q.
Proof.
  intros Hq id p p' Hp Hp'.
  destruct (purchase_store uid st) as (pre & post & Hitems & _ & Hprod & _).
  rewrite Hprod in Hp'.
  pose proof (decrement_all_lookup pre (products st) id) as H.
  rewrite Hp in H. destruct H as (p'' & Hl & _ & _ & Hs).
  assert (p'' = p') as -> by congruence.
  assert (0 <= ordered id pre)%Q.
  { apply ordered_nonneg. intros l Hl'. apply Hq.
    rewrite Hitems. apply elem_of_app. by left. }
  rewrite Hs. lra.
Qed.

(** ** Catalogue, beyond the valid case *)

Lemma updateProduct_invalid (id : ObjectId) (b : ProductBody) (st : Store) :
  ¬ valid_product_input b →
  updateProduct id b st =
    (Responded (res_status_json 400 (JErrors (product_chains b))), st).
Proof.
  intros Hn. rewrite <- product_chains_nil in Hn. unfold updateProduct.
  by destruct (product_chains b).
Qed.

Lemma updateProduct_never_creates_aux
    (id : ObjectId) (b : ProductBody) (st : Store) :
  dom (products (updateProduct id b st).2) = dom (products st) ∧
  issued (updateProduct id b st).2 = issued st ∧
  (∀ j, j ≠ id →
     products (updateProduct id b st).2 !! j = products st !! j).
Proof.
  destruct (decide (product_chains b = [])) as [Hnil | Hne].
  - apply product_chains_nil in Hnil as Hv.
    destruct (updateProduct_valid id b st Hv) as (p & _ & ->).
    destruct (products st !! id) as [p0|] eqn:Hid; simpl; [|done].
    repeat split; try done.
    + apply dom_insert_lookup_L. by eexists.
    + intros j Hj. by rewrite lookup_insert_ne.
  - rewrite product_chains_nil in Hne.
    by rewrite (updateProduct_invalid id b st Hne).
Qed.

(** X6. [updateProduct] never creates and never deletes a record, for any
    body and any id: the set of stored ids, every product under another
    id, the users and the cart are the same afterwards. *)
Theorem updateProduct_never_creates
    (id : ObjectId) (b : ProductBody) (st : Store) :
  dom (products (updateProduct id b st).2) = dom (products st) ∧
  (∀ j, j ≠ id →
     products (updateProduct id b st).2 !! j = products st !! j) ∧
  users (updateProduct id b st).2 = users st ∧
  cart (updateProduct id b st).2 = cart st ∧
  issued (updateProduct id b st).2 = issued st.
Proof.
  destruct (decide (product_chains b = [])) as [Hnil | Hne].
  - apply product_chains_nil in Hnil as Hv.
    destruct (updateProduct_valid id b st Hv) as (p & _ & ->).
    destruct (products st !! id) as [p0|] eqn:Hid; simpl; [|done].
    repeat split; try done.
    + apply dom_insert_lookup_L. by eexists.
    + intros j Hj. by rewrite lookup_insert_ne.
  - rewrite product_chains_nil in Hne.
    by rewrite (updateProduct_invalid id b st Hne).
Qed.

(** X7. Sending the same update twice is the same as sending it once: the
    second request gets the same answer and leaves the same store. *)
Theorem updateProduct_idempotent
    (id : ObjectId) (b : ProductBody) (st : Store) :
  updateProduct id b (updateProduct id b st).2 = updateProduct id b st.
Proof.
  destruct (decide (product_chains b = [])) as [Hnil | Hne].
  - apply product_chains_nil in Hnil as Hv.
    destruct (updateProduct_valid id b st Hv) as (p & Hp & Heq).
    destruct (updateProduct_valid id b (updateProduct id b st).2 Hv)
      as (p' & Hp' & ->).
    assert (p' = p) as -> by congruence. rewrite Heq.
    destruct (products st !! id) as [p0|] eqn:Hid; simpl.
    + rewrite lookup_insert_eq. unfold set_products. simpl.
      by rewrite insert_insert_eq.
    + by rewrite Hid.
  - rewrite product_chains_nil in Hne.
    by rewrite !(updateProduct_invalid id b _ Hne).
Qed.

(** ** New ids *)

Lemma new_ObjectId_unused (st : Store) :
  ids_issued st → products st !! new_ObjectId st = None.
Proof.
  intros Hids. destruct (products st !! new_ObjectId st) eqn:Hl; [|done].
  exfalso. apply (is_fresh (issued st)). apply Hids. by eexists.
Qed.

Lemma save_new_product_ids (p : Product) (st : Store) :
  ids_issued st → ids_issued (save_new_product (new_ObjectId st) p st).
Proof.
  intros Hids id. unfold save_new_product; simpl.
  rewrite lookup_insert. case_decide.
  - intros _. subst id. apply elem_of_union_l, elem_of_singleton. done.
  - intros Hsome. apply elem_of_union_r. by apply Hids.
Qed.

(** X12. After [deleteProduct id], the listing has no document under [id]
    and has every other document exactly as the store had it. *)
Theorem delete_then_list (id : ObjectId) (st : Store) :
  ∃ docs,
    (listProducts (deleteProduct id st).2).1 =
      Responded (res_json (JProducts docs)) ∧
    (∀ p, (id, p) ∉ docs) ∧
    (∀ j p, j ≠ id → ((j, p) ∈ docs ↔ products st !! j = Some p)) ∧
    (listProducts (deleteProduct id st).2).2 = (deleteProduct id st).2.
Proof.
  eexists. split; [done|]. simpl. split; [|split; [|done]].
  - intros p Hin. apply elem_of_map_to_list in Hin.
    by rewrite lookup_delete_eq in Hin.
  - intros j p Hj. rewrite elem_of_map_to_list. by rewrite lookup_delete_ne.
Qed.

(** ** Cart accumulation and checkout together *)

Lemma addToCart_success (b : CartBody) (st : Store) (p : Product) :
  products st !! body_productId b = Some p →
  (body_quantity b <= stock p)%Q →
  addToCart b st = (added_ok, set_cart (cart st ++ [line_of b]) st).
Proof.
  intros Hp Hle. unfold addToCart, findById, js_lt. rewrite Hp.
  apply Qle_bool_iff in Hle. by rewrite Hle.
Qed.

Lemma Cart_find_app_own (uid : string) (l : CartLine) (st : Store) :
  userId l = uid →
  filter (fun l => userId l = uid) (cart st ++ [l])%list =
  (Cart_find uid st ++ [l])%list.
Proof.
  intros Hu. unfold Cart_find. rewrite filter_app. f_equal.
  rewrite filter_cons, decide_True by done. done.
Qed.

Lemma Cart_find_app_other (uid : string) (l : CartLine) (st : Store) :
  userId l ≠ uid →
  filter (fun l => userId l = uid) (cart st ++ [l])%list = Cart_find uid st.
Proof.
  intros Hu. unfold Cart_find. rewrite filter_app.
  rewrite (filter_cons _ l), decide_False by done. simpl.
  by rewrite app_nil_r.
Qed.

(** X16. Lines are never merged: a cart request that succeeded succeeds
    again when it is sent again, and the cart then ends with two copies of
    its line.  The new line goes to the end of the sender's lines; the
    lines every other user gets back are the same as before. *)
Theorem addToCart_accumulates (b : CartBody) (st : Store) :
  (addToCart b st).1 = added_ok →
  addToCart b (addToCart b st).2 =
    (added_ok, set_cart (cart st ++ [line_of b; line_of b]) st) ∧
  Cart_find (body_userId b) (addToCart b st).2 =
    (Cart_find (body_userId b) st ++ [line_of b])%list ∧
  (∀ uid, uid ≠ body_userId b →
     Cart_find uid (addToCart b st).2 = Cart_find uid st).
Proof.
  destruct (addToCart_cases b st)
    as [[_ ->] | [(p & _ & _ & ->) | (p & Hp & Hle & _)]];
    [discriminate | discriminate |].
  unfold findById in Hp.
  intros _. rewrite (addToCart_success b st p Hp Hle). cbn [fst snd].
  split; [|split].
  - rewrite (addToCart_success b (set_cart (cart st ++ [line_of b]) st) p Hp Hle).
    simpl.
    unfold set_cart. simpl. by rewrite <- app_assoc.
  - by apply Cart_find_app_own.
  - intros uid Hne. apply Cart_find_app_other. simpl. congruence.
Qed.

(** X19. Deleting a product does not touch the cart: when the product of a
    user's first cart line is deleted, the user's next checkout throws
    while it builds its error text, answers nothing and changes nothing. *)
Theorem delete_then_purchase_throws
    (uid : string) (l : CartLine) (rest : list CartLine) (st : Store) :
  Cart_find uid st = l :: rest →
  cart (deleteProduct (productId l) st).2 = cart st ∧
  purchase uid (deleteProduct (productId l) st).2 =
    (Threw (TypeError "Cannot read properties of null (reading 'name')"),
     (deleteProduct (productId l) st).2).
Proof.
  intros Hfind. split; [done|].
  unfold purchase, Cart_find. simpl. unfold Cart_find in Hfind.
  rewrite Hfind. simpl. unfold findById. simpl.
  by rewrite lookup_delete_eq.
Qed.

(** ** Seeding *)

Lemma User_findOne_username_None (un : string) (st : Store) :
  User_findOne_username un st = None ↔
  ∀ u, u ∈ users st → username u ≠ un.
Proof.
  unfold User_findOne_username. split.
  - intros H u Hin Hu. apply list_elem_of_In in Hin.
    pose proof (find_none _ _ H u Hin) as Hb. simpl in Hb.
    by rewrite bool_decide_eq_true_2 in Hb.
  - intros Hno. destruct (find _ (users st)) as [u|] eqn:Hf; [|done].
    apply find_some in Hf as [Hin Hb]. apply bool_decide_eq_true in Hb.
    exfalso. apply (Hno u); [by apply list_elem_of_In | done].
Qed.

Lemma Product_findOne_name_None (n : string) (st : Store) :
  Product_findOne_name n st = None ↔
  ∀ id p, products st !! id = Some p → name p ≠ n.
Proof.
  unfold Product_findOne_name. split.
  - intros H id p Hp Hn.
    assert (In (id, p) (map_to_list (products st))) as Hin.
    { by apply list_elem_of_In, elem_of_map_to_list. }
    pose proof (find_none _ _ H (id, p) Hin) as Hb. simpl in Hb.
    by rewrite bool_decide_eq_true_2 in Hb.
  - intros Hno.
    destruct (find _ (map_to_list (products st))) as [[id p]|] eqn:Hf; [|done].
    apply find_some in Hf as [Hin Hb]. apply bool_decide_eq_true in Hb.
    apply list_elem_of_In, elem_of_map_to_list in Hin.
    exfalso. by apply (Hno id p).
Qed.

(** What the user loop leaves: the old users followed by the seeded users
    whose name was free, and nothing else changed. *)
Lemma seed_users_spec (us : list User) (st : Store) :
  ∃ added,
    users (seed_users us st) = (users st ++ added)%list ∧
    products (seed_users us st) = products st ∧
    cart (seed_users us st) = cart st ∧
    issued (seed_users us st) = issued st ∧
    (∀ u, u ∈ added →
       u ∈ us ∧ ∀ u0, u0 ∈ users st → username u0 ≠ username u) ∧
    (∀ u, u ∈ us →
       ∃ u', u' ∈ (users st ++ added)%list ∧ username u' = username u).
Proof.
  revert st. induction us as [|u us IH]; intros st; simpl.
  - exists []. rewrite app_nil_r.
    do 4 (split; [done|]). split; by intros u Hu%elem_of_nil.
  - destruct (User_findOne_username (username u) st) as [e|] eqn:Hf.
    + destruct (IH st) as (added & Hu & Hp & Hc & Hi & Hadded & Hcov).
      exists added. do 4 (split; [done|]). split.
      * intros u' Hin. destruct (Hadded u' Hin) as [Hus Hfree].
        split; [by right | done].
      * intros u' [-> | Hin]%elem_of_cons; [|by apply Hcov].
        apply find_some in Hf as [Hin Hb]. apply bool_decide_eq_true in Hb.
        exists e. split; [|done].
        apply elem_of_app. left. by apply list_elem_of_In.
    + destruct (IH (save_user u st))
        as (added & Hu & Hp & Hc & Hi & Hadded & Hcov).
      simpl in *. exists (u :: added).
      rewrite <- app_assoc in Hu. simpl in Hu.
      do 4 (split; [done|]). split.
      * intros u' [-> | Hin]%elem_of_cons.
        -- split; [by left|]. by apply User_findOne_username_None.
        -- destruct (Hadded u' Hin) as [Hus Hfree]. split; [by right|].
           intros u0 Hu0. apply Hfree. apply elem_of_app. by left.
      * intros u' [-> | Hin]%elem_of_cons.
        -- exists u. split; [|done]. apply elem_of_app. right. by left.
        -- destruct (Hcov u' Hin) as (w & Hw & Hn). exists w. split; [|done].
           by rewrite <- app_assoc in Hw.
Qed.

Lemma seed_users_noop (us : list User) (st : Store) :
  (∀ u, u ∈ us → ∃ u', u' ∈ users st ∧ username u' = username u) →
  seed_users us st = st.
Proof.
  induction us as [|u us IH]; intros Hcov; simpl; [done|].
  destruct (User_findOne_username (username u) st) as [e|] eqn:Hf.
  - apply IH. intros u' Hin. apply Hcov. by right.
  - exfalso. destruct (Hcov u ltac:(by left)) as (u' & Hin & Hn).
    by apply (proj1 (User_findOne_username_None _ _) Hf u').
Qed.

(** What the product loop leaves. *)
Lemma seed_products_spec (ps : list Product) (st : Store) :
  ids_issued st →
  users (seed_products ps st) = users st ∧
  cart (seed_products ps st) = cart st ∧
  ids_issued (seed_products ps st) ∧
  (∀ id p, products st !! id = Some p →
     products (seed_products ps st) !! id = Some p) ∧
  (∀ id p, products (seed_products ps st) !! id = Some p →
     products st !! id = Some p ∨
     (p ∈ ps ∧ ∀ id0 p0, products st !! id0 = Some p0 → name p0 ≠ name p)) ∧
  (∀ p, p ∈ ps →
     ∃ id p', products (seed_products ps st) !! id = Some p' ∧
              name p' = name p).
Proof.
  revert st. induction ps as [|x ps IH]; intros st Hids; simpl.
  - do 4 (split; [done|]). split.
    + intros id p Hp. by left.
    + by intros p Hp%elem_of_nil.
  - destruct (Product_findOne_name (name x) st) as [[i e]|] eqn:Hf.
    + destruct (IH st Hids) as (Hu & Hc & Hi & Hkeep & Hnew & Hcov).
      do 4 (split; [done|]). split.
      * intros id p Hp. destruct (Hnew id p Hp) as [? | [Hin Hfree]]; [by left|].
        right. split; [by right | done].
      * intros p [-> | Hin]%elem_of_cons; [|by apply Hcov].
        apply find_some in Hf as [Hin Hb]. apply bool_decide_eq_true in Hb.
        apply list_elem_of_In, elem_of_map_to_list in Hin.
        exists i, e. split; [by apply Hkeep | done].
    + pose proof (new_ObjectId_unused st Hids) as Hfresh.
      pose proof (save_new_product_ids x st Hids) as Hids'.
      destruct (IH _ Hids') as (Hu & Hc & Hi & Hkeep & Hnew & Hcov).
      simpl in *.
      assert (∀ id p, products st !! id = Some p →
                <[new_ObjectId st := x]> (products st) !! id = Some p) as Hold.
      { intros id p Hp. rewrite lookup_insert_ne; [done | congruence]. }
      do 3 (split; [done|]). split; [|split].
      * intros id p Hp. by apply Hkeep, Hold.
      * intros id p Hp. destruct (Hnew id p Hp) as [Hin | [Hin Hfree]].
        -- rewrite lookup_insert in Hin. case_decide.
           ++ injection Hin as <-. right. split; [by left|].
              by apply Product_findOne_name_None.
           ++ by left.
        -- right. split; [by right|].
           intros id0 p0 Hp0. by apply (Hfree id0), Hold.
      * intros p [-> | Hin]%elem_of_cons; [|by apply Hcov].
        exists (new_ObjectId st), x. split; [|done].
        apply Hkeep, lookup_insert_eq.
Qed.

Lemma seed_products_noop (ps : list Product) (st : Store) :
  (∀ p, p ∈ ps →
     ∃ id p', products st !! id = Some p' ∧ name p' = name p) →
  seed_products ps st = st.
Proof.
  induction ps as [|x ps IH]; intros Hcov; simpl; [done|].
  destruct (Product_findOne_name (name x) st) as [e|] eqn:Hf.
  - apply IH. intros p Hin. apply Hcov. by right.
  - exfalso. destruct (Hcov x ltac:(by left)) as (id & p' & Hp & Hn).
    by apply (proj1 (Product_findOne_name_None _ _) Hf id p').
Qed.

Lemma seed_users_ids (us : list User) (st : Store) :
  ids_issued st → ids_issued (seed_users us st).
Proof.
  intros Hids id. destruct (seed_users_spec us st) as (a & _ & -> & _ & -> & _).
  apply Hids.
Qed.

(** X20. Seeding a second time changes nothing. *)
Theorem seed_idempotent (st : Store) :
  ids_issued st → seed (seed st) = seed st.
Proof.
  intros Hids. unfold seed.
  set (s1 := seed_users dummyUsers st).
  assert (ids_issued s1) as Hids1 by by apply seed_users_ids.
  destruct (seed_products_spec dummyProducts s1 Hids1)
    as (Hu & _ & _ & _ & _ & Hcov).
  destruct (seed_users_spec dummyUsers st) as (added & Hus & _ & _ & _ & _ & Hucov).
  rewrite seed_users_noop.
  - by apply seed_products_noop.
  - intros u Hin. rewrite Hu. fold s1 in Hus. rewrite Hus. by apply Hucov.
Qed.

(** X21. Seeding only adds.  The users are the old users followed by the
    seeded users whose username nobody had; every old product is still
    stored unchanged, and a product that is new is a seeded product whose
    name no product had; the cart is untouched.  Afterwards every seeded
    username and every seeded product name is present. *)
Theorem seed_only_adds (st : Store) :
  ids_issued st →
  (∃ added,
     users (seed st) = (users st ++ added)%list ∧
     ∀ u, u ∈ added →
       u ∈ dummyUsers ∧ ∀ u0, u0 ∈ users st → username u0 ≠ username u) ∧
  (∀ id p, products st !! id = Some p → products (seed st) !! id = Some p) ∧
  (∀ id p, products (seed st) !! id = Some p →
     products st !! id = Some p ∨
     (p ∈ dummyProducts ∧
      ∀ id0 p0, products st !! id0 = Some p0 → name p0 ≠ name p)) ∧
  cart (seed st) = cart st ∧
  (∀ u, u ∈ dummyUsers →
     ∃ u', u' ∈ users (seed st) ∧ username u' = username u) ∧
  (∀ p, p ∈ dummyProducts →
     ∃ id p', products (seed st) !! id = Some p' ∧ name p' = name p).
Proof.
  intros Hids. unfold seed.
  set (s1 := seed_users dummyUsers st).
  assert (ids_issued s1) as Hids1 by by apply seed_users_ids.
  destruct (seed_products_spec dummyProducts s1 Hids1)
    as (Hu & Hc & _ & Hkeep & Hnew & Hcov).
  destruct (seed_users_spec dummyUsers st)
    as (added & Hus & Hps & Hcs & _ & Hadded & Hucov).
  fold s1 in Hus, Hps, Hcs. rewrite Hps in Hkeep, Hnew.
  split; [|split; [|split; [|split; [|split]]]].
  - exists added. by rewrite Hu, Hus.
  - done.
  - done.
  - by rewrite Hc, Hcs.
  - intros u Hin. rewrite Hu, Hus. by apply Hucov.
  - done.
Qed.

Lemma seed_products_users (ps : list Product) (st : Store) :
  users (seed_products ps st) = users st.
Proof.
  revert st. induction ps as [|x ps IH]; intros st; simpl; [done|].
  destruct (Product_findOne_name (name x) st); by rewrite IH.
Qed.

Lemma find_app_none {A} (f : A → bool) (l added : list A) :
  (∀ a, a ∈ added → f a = false) → find f (l ++ added) = find f l.
Proof.
  intros Hno. induction l as [|a l IH]; simpl.
  - destruct (find f added) as [a|] eqn:Hf; [|done].
    apply find_some in Hf as [Hin Hb]. apply list_elem_of_In in Hin.
    rewrite (Hno a Hin) in Hb. discriminate.
  - by destruct (f a).
Qed.

(** X22. On a database without users, the login route after seeding
    answers every username and password exactly as the login route of the
    earlier server, which searched the in-memory array. *)
Theorem login_seeded_matches_array (st : Store) (un pw : string) :
  users st = [] →
  (login un pw (seed st)).1 = login_array un pw.
Proof.
  intros Hempty.
  assert (users (seed st) = dummyUsers) as Hus.
  { unfold seed. rewrite seed_products_users.
    destruct st as [ps us c i]. simpl in Hempty. subst us. reflexivity. }
  unfold login, login_array, findOne_user. rewrite Hus.
  by destruct (find _ dummyUsers).
Qed.

(** X23. Seeding does not reset an account.  When a user with the
    username already exists, the login route answers that username after
    seeding as it did before, for every password; a seeded password works
    only if it worked already. *)
Theorem seed_keeps_accounts (st : Store) (un pw : string) :
  (∃ u, u ∈ users st ∧ username u = un) →
  (login un pw (seed st)).1 = (login un pw st).1.
Proof.
  intros (u & Hin & Hun).
  destruct (seed_users_spec dummyUsers st) as (added & Hus & _ & _ & _ & Hadded & _).
  unfold login, findOne_user, seed. rewrite seed_products_users, Hus.
  rewrite find_app_none; [by destruct (find _ (users st))|].
  intros a Ha. destruct (Hadded a Ha) as [_ Hfree].
  apply andb_false_intro1, bool_decide_eq_false.
  intros Heq. apply (Hfree u Hin). congruence.
Qed.

(** ** The added properties on the sample databases *)

Lemma sample_store_ids : ids_issued sample_store.
Proof.
  intros id. unfold sample_store. simpl.
  rewrite !lookup_insert. repeat case_decide; subst.
  - intros _. apply elem_of_union_l. by apply elem_of_singleton.
  - intros _. apply elem_of_union_r. by apply elem_of_singleton.
  - rewrite lookup_empty. by intros [? ?].
Qed.

Lemma purchase_twice_witness :
  (purchase "u" single_line_store).1 = purchase_ok ∧
  purchase "u" (purchase "u" single_line_store).2 =
    (purchase_ok, (purchase "u" single_line_store).2).
Proof.
  split; [reflexivity | apply purchase_twice; reflexivity].
Defined.

Lemma purchase_never_raises_stock_witness :
  (∀ l, l ∈ Cart_find "u" single_line_store → (0 <= quantity l)%Q) ∧
  (stock (mkProduct "Product A" 10 7) <= stock productA)%Q.
Proof.
  assert (∀ l, l ∈ Cart_find "u" single_line_store → (0 <= quantity l)%Q) as Hq.
  { intros l Hl.
    change (Cart_find "u" single_line_store) with [mkCartLine "u" "p1" 3] in Hl.
    apply list_elem_of_singleton in Hl as ->. by vm_compute. }
  split; [exact Hq|].
  apply (purchase_never_raises_stock "u" single_line_store Hq "p1");
    reflexivity.
Defined.

Lemma serve_stock_nonneg_witness :
  stock_nonneg sample_store ∧
  stock_nonneg
    (serve [PostCart fractional_body; PostCartPurchase "u";
            PostProducts restock_body; DeleteProducts "p2"] sample_store).
Proof.
  split; [exact sample_store_nonneg|].
  apply serve_stock_nonneg. exact sample_store_nonneg.
Defined.

Lemma addToCart_accumulates_witness :
  (addToCart (mkCartBody "u" "p1" 3) sample_store).1 = added_ok ∧
  cart (addToCart (mkCartBody "u" "p1" 3)
          (addToCart (mkCartBody "u" "p1" 3) sample_store).2).2 =
    [mkCartLine "u" "p1" 3; mkCartLine "u" "p1" 3].
Proof.
  split; [reflexivity|].
  destruct (addToCart_accumulates (mkCartBody "u" "p1" 3) sample_store eq_refl)
    as (-> & _).
  reflexivity.
Defined.

Lemma delete_then_purchase_throws_witness :
  Cart_find "u" single_line_store = [mkCartLine "u" "p1" 3] ∧
  (purchase "u" (deleteProduct "p1" single_line_store).2).1 =
    Threw (TypeError "Cannot read properties of null (reading 'name')").
Proof.
  split; [reflexivity|].
  pose proof (delete_then_purchase_throws "u" (mkCartLine "u" "p1" 3) []
                single_line_store eq_refl) as [_ Heq].
  cbn [productId] in Heq. rewrite Heq. reflexivity.
Defined.

Lemma seed_idempotent_witness :
  ids_issued sample_store ∧ seed (seed sample_store) = seed sample_store.
Proof.
  split; [exact sample_store_ids | exact (seed_idempotent _ sample_store_ids)].
Defined.

Lemma seed_only_adds_witness :
  ids_issued sample_store ∧
  cart (seed sample_store) = cart sample_store ∧
  products (seed sample_store) !! "p1" = Some productA.
Proof.
  split; [exact sample_store_ids|].
  destruct (seed_only_adds sample_store sample_store_ids)
    as (_ & Hkeep & _ & Hcart & _).
  split; [exact Hcart | apply Hkeep; reflexivity].
Defined.

Lemma login_seeded_matches_array_witness :
  users empty_store = [] ∧
  (login "admin" "admin123" (seed empty_store)).1 =
    login_array "admin" "admin123".
Proof.
  split; [reflexivity | apply login_seeded_matches_array; reflexivity].
Defined.

Lemma seed_keeps_accounts_witness :
  (∃ u, u ∈ users sample_store ∧ username u = "admin") ∧
  (login "admin" "admin123" (seed sample_store)).1 =
    (login "admin" "admin123" sample_store).1.
Proof.
  assert (∃ u, u ∈ users sample_store ∧ username u = "admin") as Hex.
  { exists (mkUser "admin" "admin123" "admin"). split; [by left | reflexivity]. }
  split; [exact Hex | exact (seed_keeps_accounts _ _ _ Hex)].
Defined.

(** ** The text of ids and numbers *)

Ltac each_char c :=
  destruct c as [[] [] [] [] [] [] [] []]; vm_compute; try done; auto.

Lemma digit_not_special (c : ascii) :
  is_digit c = true → is_sign c = false ∧ Ascii.eqb c "." = false.
Proof. each_char c. Qed.

Lemma lower_hex_fixed (c : ascii) :
  is_lower_hex c = true → is_hex c = true ∧ lower_hex c = c.
Proof. each_char c. Qed.

Lemma forallb_digits (l : list ascii) :
  forallb is_digit l = true ↔ Forall (fun c => is_digit c = true) l.
Proof.
  induction l as [|c r IH]; simpl.
  - split; [by constructor | done].
  - rewrite andb_true_iff, Forall_cons, IH. done.
Qed.

Lemma nonempty_digits_spec (l : list ascii) :
  nonempty_digits l = true ↔ digit_string l.
Proof.
  unfold digit_string. destruct l as [|c r].
  - simpl. split; [done | by intros [? _]].
  - unfold nonempty_digits. rewrite forallb_digits.
    split; [by intros ? | by intros [_ ?]].
Qed.

Lemma numeric_tail_spec (l : list ascii) :
  numeric_tail l = true ↔
  digit_string l ∨
  ∃ i f, Forall (fun c => is_digit c = true) i ∧ digit_string f ∧
         l = (i ++ "."%char :: f)%list.
Proof.
  induction l as [|c r IH]; simpl.
  - split; [done|]. intros [[? _] | (i & f & _ & _ & H)]; [done|].
    by destruct i.
  - destruct (Ascii.eqb c ".") eqn:Hc.
    + apply Ascii.eqb_eq in Hc as ->. rewrite nonempty_digits_spec. split.
      * intros Hf. right. exists [], r. split; [by constructor|]. by split.
      * intros [[_ Hd] | (i & f & Hi & Hf & Heq)].
        -- apply Forall_cons in Hd as [Hd _]. by vm_compute in Hd.
        -- destruct i as [|c' i]; simpl in Heq.
           ++ by injection Heq as <-.
           ++ injection Heq as <- _. apply Forall_cons in Hi as [Hd _].
              by vm_compute in Hd.
    + destruct (is_digit c) eqn:Hd; simpl.
      * destruct r as [|c' r'].
        -- split; [|done]. intros _. left. split; [done|].
           by apply Forall_cons.
        -- rewrite IH. split.
           ++ intros [[_ Hr] | (i & f & Hi & Hf & Heq)].
              ** left. split; [done | by apply Forall_cons].
              ** right. exists (c :: i), f. rewrite Heq.
                 split; [by apply Forall_cons | done].
           ++ intros [[_ Hr] | (i & f & Hi & Hf & Heq)].
              ** left. apply Forall_cons in Hr as [_ Hr]. by split.
              ** destruct i as [|c0 i]; simpl in Heq.
                 --- injection Heq as -> _. by vm_compute in Hc.
                 --- injection Heq as <- Heq. right. exists i, f.
                     apply Forall_cons in Hi as [_ Hi]. split; [done|]. by split.
      * split; [done|]. intros [[_ Hr] | (i & f & Hi & Hf & Heq)].
        -- apply Forall_cons in Hr as [Hr _]. congruence.
        -- destruct i as [|c0 i]; simpl in Heq.
           ++ injection Heq as -> _. by vm_compute in Hc.
           ++ injection Heq as <- _. apply Forall_cons in Hi as [Hi _].
              congruence.
Qed.

Lemma strip_sign_split (l : list ascii) :
  ∃ g, sign_string g ∧ l = (g ++ strip_sign l)%list.
Proof.
  destruct l as [|c r]; simpl.
  - exists []. split; [by left | done].
  - destruct (is_sign c) eqn:Hc.
    + exists [c]. split; [|done]. unfold is_sign in Hc.
      apply orb_true_iff in Hc as [Hc | Hc]; apply Ascii.eqb_eq in Hc as ->;
        [right; by left | right; by right].
    + exists []. split; [by left | done].
Qed.

Lemma strip_sign_unsigned (g t : list ascii) :
  sign_string g → starts_unsigned t → strip_sign (g ++ t) = t.
Proof.
  intros [-> | [-> | ->]] Ht; simpl; [|done|done].
  destruct t as [|c r]; [done|]. simpl in *. by rewrite Ht.
Qed.

Lemma digit_string_unsigned (d : list ascii) :
  digit_string d → starts_unsigned d.
Proof.
  intros [Hne Hd]. destruct d as [|c r]; [done|]. simpl.
  apply Forall_cons in Hd as [Hd _]. by apply digit_not_special.
Qed.

Lemma isNumeric_text_spec (s : string) :
  isNumeric_text s = true ↔ decimal_numeral s.
Proof.
  unfold isNumeric_text, decimal_numeral. rewrite numeric_tail_spec.
  destruct (strip_sign_split (String.list_ascii_of_string s)) as (g & Hg & Heq).
  split.
  - intros [Hd | (i & f & Hi & Hf & Ht)].
    + exists g, (strip_sign (String.list_ascii_of_string s)).
      split; [done|]. split; [done|]. by left.
    + exists g, f. split; [done|]. split; [done|]. right. exists i.
      split; [done|]. by rewrite <- Ht.
  - intros (g' & f & Hg' & Hf & [Hs | (i & Hi & Hs)]); rewrite Hs.
    + rewrite strip_sign_unsigned; [by left | done |].
      by apply digit_string_unsigned.
    + rewrite strip_sign_unsigned; [right; by exists i, f | done |].
      destruct i as [|c i]; simpl; [done|].
      apply Forall_cons in Hi as [Hc _]. by apply digit_not_special.
Qed.

Lemma int_value_signed (g d : list ascii) :
  sign_string g → digit_string d →
  int_value (g ++ d) =
    (if decide (g = ["-"%char]) then - digits_value d else digits_value d)%Z.
Proof.
  intros [-> | [-> | ->]] Hd; simpl; [|done|done].
  destruct Hd as [Hne Hd]. destruct d as [|c r]; [done|].
  apply Forall_cons in Hd as [Hc _]. unfold int_value.
  destruct (digit_not_special c Hc) as [Hs _]. unfold is_sign in Hs.
  apply orb_false_iff in Hs as [Hp Hm]. by rewrite Hm, Hp.
Qed.

Lemma isInt_text_spec (min : Z) (s : string) :
  isInt_text min s = true ↔ ∃ z, integer_numeral s z ∧ (min ≤ z)%Z.
Proof.
  unfold isInt_text, integer_numeral.
  rewrite andb_true_iff, nonempty_digits_spec, Z.leb_le.
  destruct (strip_sign_split (String.list_ascii_of_string s)) as (g & Hg & Heq).
  split.
  - intros [Hd Hle]. eexists. split; [|exact Hle].
    exists g, (strip_sign (String.list_ascii_of_string s)).
    split; [done|]. split; [done|]. split; [done|].
    rewrite Heq at 1. by apply int_value_signed.
  - intros (z & (g' & d & Hg' & Hd & Hs & ->) & Hle). rewrite Hs.
    rewrite strip_sign_unsigned; [|done | by apply digit_string_unsigned].
    split; [done|]. by rewrite int_value_signed.
Qed.

Lemma castObjectId_ObjectId (id : string) :
  is_ObjectId id = true → castObjectId id = Some id.
Proof.
  unfold is_ObjectId, castObjectId. intros [Hlen Hall]%andb_true_iff.
  rewrite Hlen. simpl.
  assert (forallb is_hex (String.list_ascii_of_string id) = true ∧
          map lower_hex (String.list_ascii_of_string id) =
            String.list_ascii_of_string id) as [-> ->].
  { clear Hlen. induction (String.list_ascii_of_string id) as [|c l IH];
      simpl in *; [done|].
    apply andb_true_iff in Hall as [Hc Hl].
    destruct (lower_hex_fixed c Hc) as [-> ->]. destruct (IH Hl) as [-> ->].
    done. }
  by rewrite String.string_of_list_ascii_of_string.
Qed.

Lemma castObjectId_short (raw : string) :
  (length (String.list_ascii_of_string raw) < 12)%nat → castObjectId raw = None.
Proof.
  intros Hlen. unfold castObjectId.
  destruct (Nat.eqb_spec (length (String.list_ascii_of_string raw)) 24);
    [lia|].
  destruct (Nat.eqb_spec (length (String.list_ascii_of_string raw)) 12);
    [lia | done].
Qed.

(** ** Doubles: comparison and subtraction *)

(** Two facts about IEEE doubles that the routes rest on, from the
    specification of the primitive operations: a difference is NaN only
    when an operand is NaN or both are infinite, and [q <= s] excludes
    [s < q]. *)

Lemma SFcompare_refl (x : spec_float) :
  x ≠ S754_nan → SFcompare x x = Some Eq.
Proof.
  destruct x as [s| s | | s m e]; simpl; try done.
  - by destruct s.
  - intros _. rewrite Z.compare_refl.
    assert (Pos.compare_cont Eq m m = Eq) as -> by apply Pos.compare_cont_refl.
    by destruct s.
Qed.

Lemma is_nan_spec (x : float) :
  PrimFloat.is_nan x = true ↔ Prim2SF x = S754_nan.
Proof.
  unfold PrimFloat.is_nan. rewrite FloatAxioms.eqb_spec. unfold SFeqb. split.
  - intros H. destruct (Prim2SF x) eqn:Hx; try done;
      rewrite SFcompare_refl in H; done.
  - intros ->. done.
Qed.

Lemma is_nan_false (x : float) :
  PrimFloat.is_nan x = false ↔ Prim2SF x ≠ S754_nan.
Proof.
  rewrite <- is_nan_spec. destruct (PrimFloat.is_nan x); split; congruence.
Qed.

Lemma leb_true_numbers (x y : float) :
  PrimFloat.leb x y = true → Prim2SF x ≠ S754_nan ∧ Prim2SF y ≠ S754_nan.
Proof.
  rewrite FloatAxioms.leb_spec. unfold SFleb.
  destruct (Prim2SF x), (Prim2SF y); simpl; try done.
Qed.

Lemma is_infinity_false (x : float) (s : bool) :
  PrimFloat.is_infinity x = false → Prim2SF x ≠ S754_infinity s.
Proof.
  unfold PrimFloat.is_infinity. rewrite FloatAxioms.eqb_spec, FloatAxioms.abs_spec. intros H Hx.
  rewrite Hx in H. by vm_compute in H.
Qed.

Lemma shr_1_nonneg (mrs : shr_record) :
  (0 ≤ shr_m mrs)%Z → (0 ≤ shr_m (shr_1 mrs))%Z.
Proof. destruct mrs as [[|[p|p|]|p] r s]; simpl; lia. Qed.

Lemma iter_pos_shr_1_nonneg (p : positive) (mrs : shr_record) :
  (0 ≤ shr_m mrs)%Z → (0 ≤ shr_m (SpecFloat.iter_pos shr_1 p mrs))%Z.
Proof.
  revert mrs. induction p as [p IH | p IH |]; intros mrs H; simpl.
  - apply IH, IH. by apply shr_1_nonneg.
  - by apply IH, IH.
  - by apply shr_1_nonneg.
Qed.

Lemma shr_fexp_nonneg (prec emax m e : Z) (l : location) :
  (0 ≤ m)%Z → (0 ≤ shr_m (shr_fexp prec emax m e l).1)%Z.
Proof.
  intros Hm. unfold shr_fexp, shr.
  assert (0 ≤ shr_m (shr_record_of_loc m l))%Z as H0.
  { by destruct l as [|[]]. }
  destruct (fexp prec emax (Zdigits2 m + e) - e)%Z; simpl; try done.
  by apply iter_pos_shr_1_nonneg.
Qed.

Lemma round_nearest_even_nonneg (m : Z) (l : location) :
  (0 ≤ m)%Z → (0 ≤ round_nearest_even m l)%Z.
Proof.
  intros Hm. destruct l as [|[]]; simpl; try lia.
  destruct (Z.even m); lia.
Qed.

Lemma binary_round_aux_number (prec emax : Z) (sx : bool) (mx ex : Z)
    (lx : location) :
  (0 ≤ mx)%Z → binary_round_aux prec emax sx mx ex lx ≠ S754_nan.
Proof.
  intros Hm. unfold binary_round_aux.
  pose proof (shr_fexp_nonneg prec emax mx ex lx Hm) as H1.
  destruct (shr_fexp prec emax mx ex lx) as [mrs' e']. simpl in H1.
  pose proof (shr_fexp_nonneg prec emax
                (round_nearest_even (shr_m mrs') (loc_of_shr_record mrs'))
                e' loc_Exact (round_nearest_even_nonneg _ _ H1)) as H2.
  destruct (shr_fexp prec emax _ e' loc_Exact) as [mrs'' e'']. simpl in H2.
  destruct (shr_m mrs''); [done | | lia].
  by destruct (e'' <=? emax - prec)%Z.
Qed.

Lemma binary_normalize_number (prec emax m e : Z) (szero : bool) :
  binary_normalize prec emax m e szero ≠ S754_nan.
Proof.
  unfold binary_normalize, binary_round. destruct m as [|m|m]; [done| |].
  - destruct (shl_align _ _ _) as [mz ez]. by apply binary_round_aux_number.
  - destruct (shl_align _ _ _) as [mz ez]. by apply binary_round_aux_number.
Qed.

Lemma SFsub_number (prec emax : Z) (x y : spec_float) :
  x ≠ S754_nan → y ≠ S754_nan →
  (∀ s, y ≠ S754_infinity s) →
  SFsub prec emax x y ≠ S754_nan.
Proof.
  intros Hx Hy Hinf.
  destruct x as [sx|sx| |sx mx ex], y as [sy|sy| |sy my ey]; simpl; try done;
    try (by destruct (Hinf sy)); try (by destruct sx, sy).
  apply binary_normalize_number.
Qed.

(** A stock that covers a quantity which is not infinite, less that
    quantity, is a number. *)
Lemma sub_number (s q : float) :
  PrimFloat.leb q s = true → PrimFloat.is_infinity q = false →
  PrimFloat.is_nan (PrimFloat.sub s q) = false.
Proof.
  intros [Hq Hs]%leb_true_numbers Hinf.
  apply is_nan_false. rewrite FloatAxioms.sub_spec.
  apply SFsub_number; [done | done |].
  intros sg. by apply is_infinity_false.
Qed.

Lemma SFcompare_antisym (x y : spec_float) :
  SFcompare y x = CompOpp <$> SFcompare x y.
Proof.
  destruct x as [sx|sx| |sx mx ex], y as [sy|sy| |sy my ey]; simpl;
    try done; try (by destruct sx); try (by destruct sy);
    try (by destruct sx, sy).
  f_equal. rewrite (Z.compare_antisym ex ey).
  pose proof (Pos.compare_cont_antisym mx my Eq) as H.
  destruct sx, sy; try done; destruct (ex ?= ey)%Z; simpl; try done.
  exact (f_equal CompOpp (eq_sym H)).
Qed.

(** [q <= s] rules out [s < q] and a NaN on either side. *)
Lemma leb_not_ltb (q s : float) :
  PrimFloat.leb q s = true →
  PrimFloat.ltb s q = false ∧ PrimFloat.is_nan q = false.
Proof.
  intros H. split.
  - rewrite FloatAxioms.leb_spec in H. rewrite FloatAxioms.ltb_spec.
    unfold SFleb, SFltb in *. rewrite SFcompare_antisym.
    by destruct (SFcompare (Prim2SF q) (Prim2SF s)) as [[]|].
  - apply is_nan_false. by apply leb_true_numbers in H as [? _].
Qed.

(** ** The routes on requests as they arrive *)

Section on_doubles.
Import Double.

Lemma text_chains_nil (b : ProductBody) :
  product_chains b = [] ↔ accepted_product_body b.
Proof.
  unfold product_chains, accepted_product_body.
  rewrite <- notEmpty_spec, <- isNumeric_text_spec, <- (isInt_text_spec 0).
  split.
  - intros H. apply app_eq_nil in H as [H1 H]. apply app_eq_nil in H as [H2 H3].
    by rewrite check_nil in H1, H2, H3.
  - intros (H1 & H2 & H3). by rewrite H1, H2, H3.
Qed.


Lemma cast_fields_numbers (b : ProductBody) (p s : float) :
  castNumber (body_price b) = Some p → castNumber (body_stock b) = Some s →
  cast_fields b = inl (mkProduct (body_name b) p s).
Proof. intros Hp Hs. unfold cast_fields. by rewrite Hp, Hs. Qed.


Lemma createProduct_rejected (generated : ObjectId) (b : ProductBody)
    (st : Store) :
  ¬ accepted_product_body b →
  createProduct generated b st =
    (Responded (res_status_json 400 (JErrors (product_chains b))), st) ∧
  product_chains b ≠ [].
Proof.
  intros Hn. rewrite <- text_chains_nil in Hn. unfold createProduct.
  by destruct (product_chains b).
Qed.

Lemma createProduct_accepted (generated : ObjectId) (b : ProductBody)
    (st : Store) :
  accepted_product_body b →
  createProduct generated b st =
    match cast_fields b, cast_body_id b with
    | inr path, _ => (Threw (CastError path), st)
    | inl _, inr path => (Threw (CastError path), st)
    | inl newProduct, inl _id =>
        match products st !! document_id generated _id with
        | Some _ => (Threw (DuplicateKey (document_id generated _id)), st)
        | None =>
            (Responded (res_json
               (JMessageProduct "Product created"
                  (document_id generated _id) newProduct)),
             set_products
               (<[document_id generated _id := newProduct]> (products st)) st)
        end
    end.
Proof.
  intros Ha. apply text_chains_nil in Ha. unfold createProduct.
  rewrite Ha. simpl.
  destruct (cast_fields b) as [np|]; [|done].
  destruct (cast_body_id b) as [_id|]; [|done].
  unfold save_new_product.
  by destruct (products st !! document_id generated _id).
Qed.

Lemma updateProduct_rejected (raw_id : string) (b : ProductBody) (st : Store) :
  ¬ accepted_product_body b →
  updateProduct raw_id b st =
    (Responded (res_status_json 400 (JErrors (product_chains b))), st) ∧
  product_chains b ≠ [].
Proof.
  intros Hn. rewrite <- text_chains_nil in Hn. unfold updateProduct.
  by destruct (product_chains b).
Qed.

Lemma updateProduct_accepted (raw_id : string) (b : ProductBody) (st : Store) :
  accepted_product_body b →
  updateProduct raw_id b st =
    match castObjectId raw_id with
    | None => (Threw (CastError "_id"), st)
    | Some id =>
        match cast_fields b, cast_body_id b with
        | inr path, _ => (Threw (CastError path), st)
        | inl _, inr path => (Threw (CastError path), st)
        | inl fields, inl _id =>
            match products st !! id with
            | Some _ =>
                if decide (document_id id _id = id) then
                  (Responded (res_json
                     (JMessageProduct "Product updated" id fields)),
                   set_products (<[id := fields]> (products st)) st)
                else (Threw (ImmutableField "_id"), st)
            | None =>
                (Responded (res_status_json 404 (JError "Product not found")), st)
            end
        end
    end.
Proof.
  intros Ha. apply text_chains_nil in Ha. unfold updateProduct.
  rewrite Ha. simpl. destruct (castObjectId raw_id) as [id|]; [|done].
  destruct (cast_fields b) as [fields|]; [|done].
  destruct (cast_body_id b) as [_id|]; [|done].
  unfold findByIdAndUpdate. destruct (products st !! id); [|done].
  destruct _id as [other|]; simpl.
  - by destruct (decide (other = id)).
  - by rewrite decide_True.
Qed.




(** ** Checkout on doubles *)

Lemma double_save_product_decrement (l : CartLine) (p : Product) (st : Store) :
  products st !! productId l = Some p →
  PrimFloat.is_nan (PrimFloat.sub (stock p) (quantity l)) = false →
  save_product (productId l)
    (mkProduct (name p) (price p) (PrimFloat.sub (stock p) (quantity l))) st =
  inl (set_products (decrement l (products st)) st).
Proof.
  intros Hp Hnan. unfold save_product. simpl. rewrite Hnan.
  unfold decrement. do 2 f_equal.
  apply map_eq. intros j. rewrite lookup_insert, lookup_alter.
  case_decide; [subst j; by rewrite Hp | done].
Qed.

Lemma double_set_products_id (st : Store) : set_products (products st) st = st.
Proof. by destruct st. Qed.

(** The loop over a prefix of lines that all pass. *)
Lemma double_purchase_loop_app (pre post : list CartLine) (st : Store) :
  lines_pass pre (products st) →
  decrements_are_numbers pre (products st) →
  purchase_loop (pre ++ post) st =
  purchase_loop post
    (set_products (foldl (flip decrement) (products st) pre) st).
Proof.
  revert st. induction pre as [|l pre IH]; intros st Hpass Hnum; simpl.
  - by rewrite double_set_products_id.
  - destruct Hpass as [(p & Hp & Hle) Hrest]. destruct Hnum as [Hnan Hnum].
    unfold findById. rewrite Hp, Hle.
    rewrite (double_save_product_decrement l p st Hp (Hnan p Hp)).
    by rewrite IH.
Qed.

Lemma double_purchase_loop_pass (items : list CartLine) (st : Store) :
  lines_pass items (products st) →
  decrements_are_numbers items (products st) →
  purchase_loop items st =
  inl (set_products (foldl (flip decrement) (products st) items) st).
Proof.
  intros Hpass Hnum. rewrite <- (app_nil_r items) at 1.
  by rewrite double_purchase_loop_app.
Qed.

(** Lines that pass, none of an infinite quantity, leave numbers. *)
Lemma lines_pass_numbers (items : list CartLine) (ps : gmap string Product) :
  lines_pass items ps → no_infinite_quantity items →
  decrements_are_numbers items ps.
Proof.
  revert ps. induction items as [|l items IH]; intros ps Hpass Hfin; [done|].
  destruct Hpass as [(p & Hp & Hle) Hrest]. split.
  - intros p' Hp'. assert (p' = p) as -> by congruence.
    apply sub_number; [done|]. apply Hfin. by left.
  - apply IH; [done|]. intros l' Hl'. apply Hfin. by right.
Qed.

(** How far the loop gets: it applies the decrements of the longest prefix
    of lines that pass and can be saved, and ends at the end of the list,
    at a line that is short of stock, at a line whose decrement is NaN, or
    at a line whose product is missing. *)
Lemma double_purchase_loop_result (items : list CartLine) (st : Store) :
  ∃ pre post,
    items = (pre ++ post)%list ∧
    lines_pass pre (products st) ∧
    decrements_are_numbers pre (products st) ∧
    match post with
    | [] =>
        purchase_loop items st =
          inl (set_products (foldl (flip decrement) (products st) pre) st)
    | l :: _ =>
        match foldl (flip decrement) (products st) pre !! productId l with
        | Some p =>
            (PrimFloat.leb (quantity l) (stock p) = false ∧
             purchase_loop items st =
               inr (Responded (res_status_json 400
                      (JError ("Insufficient stock for " ++ name p))),
                    set_products (foldl (flip decrement) (products st) pre) st))
            ∨
            (PrimFloat.leb (quantity l) (stock p) = true ∧
             PrimFloat.is_nan (PrimFloat.sub (stock p) (quantity l)) = true ∧
             purchase_loop items st =
               inr (Threw (CastError "stock"),
                    set_products (foldl (flip decrement) (products st) pre) st))
        | None =>
            purchase_loop items st =
              inr (Threw (TypeError "Cannot read properties of null (reading 'name')"),
                   set_products (foldl (flip decrement) (products st) pre) st)
        end
    end.
Proof.
  revert st. induction items as [|l items IH]; intros st.
  - exists [], []. simpl. by rewrite double_set_products_id.
  - simpl. unfold findById.
    destruct (products st !! productId l) as [p|] eqn:Hp.
    + destruct (PrimFloat.leb (quantity l) (stock p)) eqn:Hle.
      * destruct (PrimFloat.is_nan (PrimFloat.sub (stock p) (quantity l)))
          eqn:Hnan.
        -- exists [], (l :: items). simpl. rewrite Hp, double_set_products_id.
           split; [done|]. split; [done|]. split; [done|]. right.
           split; [done|]. split; [done|].
           unfold save_product. simpl. by rewrite Hnan.
        -- rewrite (double_save_product_decrement l p st Hp Hnan).
           destruct (IH (set_products (decrement l (products st)) st))
             as (pre & post & -> & Hpass & Hnum & Hres).
           exists (l :: pre), post. split; [done|]. split.
           { split; [|done]. by exists p. }
           split.
           { split; [|done]. intros p' Hp'. congruence. }
           simpl in *. destruct post as [|l' post]; [done|].
           by destruct (foldl (flip decrement) (decrement l (products st)) pre
                          !! productId l').
      * exists [], (l :: items). simpl. rewrite Hp, double_set_products_id.
        split; [done|]. split; [done|]. split; [done|]. by left.
    + exists [], (l :: items). simpl. by rewrite Hp, double_set_products_id.
Qed.


Lemma double_filter_other_users (uid : string) (c : list CartLine) :
  filter (fun l => userId l = uid) c = [] →
  filter (fun l => userId l ≠ uid) c = c.
Proof.
  induction c as [|l c IH]; [done|].
  rewrite !filter_cons. destruct (decide (userId l = uid)) as [He | Hn].
  - done.
  - intros H. rewrite decide_True by done. f_equal. by apply IH.
Qed.



(** X24. After lines that pass, none of an infinite quantity, the loop
    stops at the first line whose product is short of stock, and answers
    with that product's name; the decrements of the lines before it stay,
    and the cart is not touched. *)
Theorem purchase_aborts_on_low_stock
    (uid : string) (st : Store) (pre post : list CartLine) (l : CartLine)
    (p : Product) :
  filter (fun l => userId l = uid) (cart st) = (pre ++ l :: post)%list →
  lines_pass pre (products st) →
  no_infinite_quantity pre →
  foldl (flip decrement) (products st) pre !! productId l = Some p →
  PrimFloat.leb (quantity l) (stock p) = false →
  purchase uid st =
    (Responded (res_status_json 400
       (JError ("Insufficient stock for " ++ name p))),
     set_products (foldl (flip decrement) (products st) pre) st).
Proof.
  intros Hfind Hpass Hfin Hp Hlt. unfold purchase, Cart_find.
  rewrite Hfind, double_purchase_loop_app
    by (try done; by apply lines_pass_numbers). simpl.
  unfold findById. simpl. by rewrite Hp, Hlt.
Qed.

(** X1. Checkout answers "Purchase successful!" exactly when every line
    of the user passes its stock check in fetch order and no decrement
    leaves NaN.  Otherwise it answers 400 with an error text, or throws,
    and in each of these cases it leaves the cart collection as it was.
    When no line of the user asks for an infinite quantity, the answer is
    "Purchase successful!" exactly when every line passes, and no save is
    refused. *)
Theorem purchase_outcome (uid : string) (st : Store) :
  ((purchase uid st).1 = purchase_ok ↔
     lines_pass (filter (fun l => userId l = uid) (cart st)) (products st) ∧
     decrements_are_numbers (filter (fun l => userId l = uid) (cart st))
                            (products st)) ∧
  ((purchase uid st).1 = purchase_ok ∨
   (classify (purchase uid st).1 = Some InsufficientStock ∧
    cart (purchase uid st).2 = cart st) ∨
   ((purchase uid st).1 =
      Threw (TypeError "Cannot read properties of null (reading 'name')") ∧
    cart (purchase uid st).2 = cart st) ∨
   ((purchase uid st).1 = Threw (CastError "stock") ∧
    cart (purchase uid st).2 = cart st)) ∧
  (no_infinite_quantity (filter (fun l => userId l = uid) (cart st)) →
     ((purchase uid st).1 = purchase_ok ↔
        lines_pass (filter (fun l => userId l = uid) (cart st)) (products st)) ∧
     (purchase uid st).1 ≠ Threw (CastError "stock")).
Proof.
  change (filter (fun l => userId l = uid) (cart st)) with (Cart_find uid st).
  destruct (double_purchase_loop_result (Cart_find uid st) st)
    as (pre & post & Hitems & Hpass & Hnum & Hres).
  unfold purchase. destruct post as [|l post].
  - rewrite Hres. simpl. rewrite app_nil_r in Hitems. rewrite Hitems.
    split; [done|]. split; [by left|]. intros _. by split.
  - assert (¬ (lines_pass (Cart_find uid st) (products st) ∧
               decrements_are_numbers (Cart_find uid st) (products st)))
      as Hnot.
    { intros [Hall Hnums].
      pose proof (double_purchase_loop_pass _ _ Hall Hnums) as Hinl.
      destruct (foldl (flip decrement) (products st) pre !! productId l);
        [destruct Hres as [[_ Hres] | (_ & _ & Hres)]|]; congruence. }
    assert (no_infinite_quantity (Cart_find uid st) →
            ¬ lines_pass (Cart_find uid st) (products st)) as Hnot'.
    { intros Hfin Hall. apply Hnot. split; [done|].
      by apply lines_pass_numbers. }
    destruct (foldl (flip decrement) (products st) pre !! productId l) as [p|].
    + destruct Hres as [[_ ->] | (Hle & Hnan & ->)]; simpl.
      * split; [done|]. split; [right; by left|].
        intros Hfin. split; [|done]. split; [done|]. intros Hall.
        by destruct (Hnot' Hfin).
      * split; [done|]. split; [right; right; by right|].
        intros Hfin. exfalso.
        assert (PrimFloat.is_infinity (quantity l) = false) as Hl.
        { apply Hfin. rewrite Hitems. apply elem_of_app. right. by left. }
        rewrite (sub_number _ _ Hle Hl) in Hnan. done.
    + rewrite Hres. simpl. split; [done|]. split; [right; right; by left|].
      intros Hfin. split; [|done]. split; [done|]. intros Hall.
      by destruct (Hnot' Hfin).
Qed.

Lemma addToCart_success_double (b : CartBody) (st : Store) (p : Product) :
  is_ObjectId (body_productId b) = true →
  products st !! body_productId b = Some p →
  PrimFloat.ltb (stock p) (body_quantity b) = false →
  PrimFloat.is_nan (body_quantity b) = false →
  addToCart b st =
    (added_ok,
     set_cart (cart st ++
       [mkCartLine (body_userId b) (body_productId b) (body_quantity b)]) st).
Proof.
  intros Hid Hp Hlt Hnan. unfold addToCart.
  rewrite (castObjectId_ObjectId _ Hid). unfold findById. rewrite Hp, Hlt.
  unfold save_cartItem. simpl. by rewrite Hnan.
Qed.

(** X17. A user without cart lines who adds one line of a quantity that
    is not infinite and that the stock covers, and then checks out, is
    answered "Purchase successful!"; the product's stock is the old stock
    less the quantity, as doubles subtract, and everything else, the cart
    included, is as it was before the two requests. *)
Theorem add_then_purchase (b : CartBody) (st : Store) (p : Product) :
  is_ObjectId (body_productId b) = true →
  filter (fun l => userId l = body_userId b) (cart st) = [] →
  products st !! body_productId b = Some p →
  PrimFloat.leb (body_quantity b) (stock p) = true →
  PrimFloat.is_infinity (body_quantity b) = false →
  (addToCart b st).1 = added_ok ∧
  purchase (body_userId b) (addToCart b st).2 =
    (purchase_ok,
     set_products
       (<[body_productId b :=
            mkProduct (name p) (price p)
                      (PrimFloat.sub (stock p) (body_quantity b))]>
          (products st)) st).
Proof.
  intros Hid Hempty Hp Hle Hfin.
  destruct (leb_not_ltb _ _ Hle) as [Hlt Hq].
  pose proof (sub_number _ _ Hle Hfin) as Hnan.
  rewrite (addToCart_success_double b st p Hid Hp Hlt Hq). split; [done|].
  cbn [fst snd]. unfold purchase, Cart_find. cbn [cart set_cart].
  rewrite filter_app, Hempty, filter_cons, decide_True by done.
  simpl. unfold findById. simpl. rewrite Hp, Hle.
  unfold save_product. simpl. rewrite Hnan.
  unfold Cart_deleteMany, set_products, set_cart. simpl.
  rewrite filter_app, (double_filter_other_users _ _ Hempty).
  rewrite filter_cons, decide_False by (simpl; auto).
  by rewrite app_nil_r.
Qed.

(** X18. The stock check of [addToCart] does not count what the cart
    already holds.  Two requests of one user for one product, each within
    the stock but the second above what the first leaves, are both
    accepted; checkout then settles the first line, stops at the second
    with the 400 answer naming the product, and leaves the first decrement
    and both lines in place. *)
Theorem overcommitted_cart
    (uid : string) (pid : ObjectId) (q1 q2 : float) (st : Store) (p : Product) :
  is_ObjectId pid = true →
  filter (fun l => userId l = uid) (cart st) = [] →
  products st !! pid = Some p →
  PrimFloat.leb q1 (stock p) = true →
  PrimFloat.leb q2 (stock p) = true →
  PrimFloat.is_infinity q1 = false →
  PrimFloat.leb q2 (PrimFloat.sub (stock p) q1) = false →
  (addToCart (mkCartBody uid pid q1) st).1 = added_ok ∧
  (addToCart (mkCartBody uid pid q2) (addToCart (mkCartBody uid pid q1) st).2).1 =
    added_ok ∧
  purchase uid
    (addToCart (mkCartBody uid pid q2) (addToCart (mkCartBody uid pid q1) st).2).2 =
    (Responded (res_status_json 400
       (JError ("Insufficient stock for " ++ name p))),
     mkStore
       (<[pid := mkProduct (name p) (price p) (PrimFloat.sub (stock p) q1)]>
          (products st))
       (users st)
       (cart st ++ [mkCartLine uid pid q1; mkCartLine uid pid q2])%list).
Proof.
  intros Hid Hempty Hp Hle1 Hle2 Hfin Hshort.
  destruct (leb_not_ltb _ _ Hle1) as [Hlt1 Hq1].
  destruct (leb_not_ltb _ _ Hle2) as [Hlt2 Hq2].
  pose proof (sub_number _ _ Hle1 Hfin) as Hnan1.
  rewrite (addToCart_success_double (mkCartBody uid pid q1) st p Hid Hp Hlt1 Hq1).
  split; [done|]. cbn [fst snd body_userId body_productId body_quantity].
  rewrite (addToCart_success_double (mkCartBody uid pid q2)
             (set_cart (cart st ++ [mkCartLine uid pid q1]) st)
             p Hid Hp Hlt2 Hq2).
  split; [done|]. cbn [fst snd body_userId body_productId body_quantity].
  unfold purchase, Cart_find. cbn [cart set_cart].
  rewrite <- app_assoc. simpl.
  rewrite filter_app, Hempty. simpl.
  rewrite !filter_cons, !decide_True by done. simpl.
  unfold findById. simpl. rewrite Hp, Hle1.
  unfold save_product. simpl. rewrite Hnan1. simpl.
  rewrite lookup_insert_eq. simpl. by rewrite Hshort.
Qed.

(** ** More on the arriving requests *)

(** X5. [PUT /products/:id] validates before it touches the id: a body
    that does not pass the chains is answered with the 400 and its field
    errors whatever the id is, well-formed or not, and nothing is stored.
    A body that passes, with an id too short to be an id, makes the route
    throw a cast error and answer nothing.  NotFound is only ever the
    answer to a body that passes. *)
Theorem updateProduct_validation_first
    (raw_id : string) (b : ProductBody) (st : Store) :
  (classify (updateProduct raw_id b st).1 = Some ValidationError ↔
     ¬ accepted_product_body b) ∧
  (¬ accepted_product_body b →
     updateProduct raw_id b st =
       (Responded (res_status_json 400 (JErrors (product_chains b))), st) ∧
     product_chains b ≠ []) ∧
  (accepted_product_body b →
     (length (String.list_ascii_of_string raw_id) < 12)%nat →
     updateProduct raw_id b st = (Threw (CastError "_id"), st)) ∧
  (classify (updateProduct raw_id b st).1 = Some NotFound →
     accepted_product_body b).
Proof.
  destruct (decide (product_chains b = [])) as [Hnil | Hne].
  - apply text_chains_nil in Hnil as Ha.
    rewrite (updateProduct_accepted _ _ _ Ha).
    split; [|split; [done|split; [|done]]].
    + split; [|done].
      destruct (castObjectId raw_id) as [id|]; [|done].
      destruct (cast_fields b); [|done].
      destruct (cast_body_id b) as [_id|]; [|done].
      destruct (products st !! id); [|done].
      by destruct (decide (document_id id _id = id)).
    + intros _ Hlen. by rewrite (castObjectId_short raw_id Hlen).
  - rewrite text_chains_nil in Hne.
    destruct (updateProduct_rejected raw_id b st Hne) as [Heq Hnn].
    rewrite Heq. cbn.
    split; [done|]. split; [done|]. split; done.
Qed.

(** X8. The errors of a rejected product body name the fields that
    failed: the name error is listed exactly when the name is empty, the
    price error exactly when the text of the price is not a decimal
    numeral, the stock error exactly when the text of the stock is not an
    integer numeral of value zero or more; every error is for one of the
    three fields. *)
Theorem product_chains_errors (b : ProductBody) :
  (mkFieldError "name" "Name is required" ∈ product_chains b ↔
     body_name b = "") ∧
  (mkFieldError "price" "Price must be a number" ∈ product_chains b ↔
     ¬ decimal_numeral (text (body_price b))) ∧
  (mkFieldError "stock" "Stock must be a non-negative integer"
     ∈ product_chains b ↔
     ¬ ∃ z, integer_numeral (text (body_stock b)) z ∧ (0 ≤ z)%Z) ∧
  (∀ e, e ∈ product_chains b →
     param e = "name" ∨ param e = "price" ∨ param e = "stock").
Proof.
  unfold product_chains.
  rewrite <- isNumeric_text_spec, <- (isInt_text_spec 0).
  assert (body_name b = "" ↔ notEmpty (body_name b) = false) as ->.
  { destruct (body_name b); simpl; split; congruence. }
  destruct (notEmpty (body_name b)), (isNumeric_text (text (body_price b))),
    (isInt_text 0 (text (body_stock b))); simpl;
    (split; [|split; [|split]]);
    try (rewrite ?elem_of_cons, ?elem_of_nil; split;
         [intros H; repeat destruct H as [H | H]; try done; congruence
         | intros H; try done; try congruence; auto]);
    intros e He; rewrite ?elem_of_cons, ?elem_of_nil in He;
    repeat destruct He as [He | He]; try done; subst e; simpl; auto.
Qed.

(** X9. [POST /products] never overwrites and never removes: whatever the
    request and whatever the outcome, every product that was stored is
    still stored unchanged, there is at most one product more, and users
    and cart are untouched.  A body that passes and casts, and whose
    document id is taken, makes the insert fail rather than replace the
    record. *)
Theorem createProduct_never_overwrites
    (generated : ObjectId) (b : ProductBody) (st : Store) :
  (∀ j q, products st !! j = Some q →
     products (createProduct generated b st).2 !! j = Some q) ∧
  (size (products (createProduct generated b st).2) = size (products st) ∨
   size (products (createProduct generated b st).2) =
     S (size (products st))) ∧
  users (createProduct generated b st).2 = users st ∧
  cart (createProduct generated b st).2 = cart st ∧
  (∀ _id,
     cast_body_id b = inl _id →
     is_Some (products st !! document_id generated _id) →
     accepted_product_body b →
     is_Some (castNumber (body_price b)) →
     is_Some (castNumber (body_stock b)) →
     createProduct generated b st =
       (Threw (DuplicateKey (document_id generated _id)), st)).
Proof.
  destruct (decide (product_chains b = [])) as [Hnil | Hne].
  - apply text_chains_nil in Hnil as Ha.
    rewrite (createProduct_accepted _ _ _ Ha).
    destruct (cast_fields b) as [np|] eqn:Hcast.
    + destruct (cast_body_id b) as [_id|].
      * destruct (products st !! document_id generated _id) as [p0|] eqn:Hid;
          simpl.
        -- split; [done|]. split; [by left|]. split; [done|]. split; [done|].
           by intros _id' [= <-] _ _ _ _.
        -- split; [|split; [|split; [done|split; [done|]]]].
           ++ intros j q Hj. rewrite lookup_insert_ne; [done | congruence].
           ++ right. by apply map_size_insert_None.
           ++ intros _id' [= <-] [? ?]. congruence.
      * simpl. split; [done|]. split; [by left|]. split; [done|].
        split; [done|]. by intros _id' [=].
    + simpl. split; [done|]. split; [by left|]. split; [done|]. split; [done|].
      intros _id' _ _ _ [pr Hp] [sk Hs].
      by rewrite (cast_fields_numbers b pr sk Hp Hs) in Hcast.
  - rewrite text_chains_nil in Hne.
    destruct (createProduct_rejected generated b st Hne) as [-> _].
    simpl. split; [done|]. split; [by left|]. split; [done|]. split; [done|].
    by intros _id' _ _ Ha.
Qed.

(** X10. Creating a product under a generated id that is well-formed and
    free, and then deleting the id that the answer carries, gives back the
    product collection as it was. *)
Theorem create_then_delete
    (generated : ObjectId) (b : ProductBody) (st : Store) (p s : float) :
  is_ObjectId generated = true →
  products st !! generated = None →
  body__id b = None →
  accepted_product_body b →
  castNumber (body_price b) = Some p →
  castNumber (body_stock b) = Some s →
  (createProduct generated b st).1 =
    Responded (res_json
      (JMessageProduct "Product created" generated
         (mkProduct (body_name b) p s))) ∧
  products (deleteProduct generated (createProduct generated b st).2).2 =
    products st.
Proof.
  intros Hid Hfree Hnone Ha Hp Hs.
  rewrite (createProduct_accepted _ _ _ Ha), (cast_fields_numbers b p s Hp Hs).
  unfold cast_body_id. rewrite Hnone. simpl. rewrite Hfree.
  split; [done|]. simpl.
  unfold deleteProduct. rewrite (castObjectId_ObjectId _ Hid). simpl.
  rewrite delete_insert_eq. by apply delete_id.
Qed.

(** X11. Names are not unique: the same body, bringing no [_id], sent
    twice, each time with a generated id that no product has, is stored
    twice, and both records are listed. *)
Theorem createProduct_twice
    (g1 g2 : ObjectId) (b : ProductBody) (st : Store) (p s : float) :
  g1 ≠ g2 →
  products st !! g1 = None →
  products st !! g2 = None →
  body__id b = None →
  accepted_product_body b →
  castNumber (body_price b) = Some p →
  castNumber (body_stock b) = Some s →
  ∃ docs,
    (createProduct g1 b st).1 =
      Responded (res_json
        (JMessageProduct "Product created" g1 (mkProduct (body_name b) p s))) ∧
    (createProduct g2 b (createProduct g1 b st).2).1 =
      Responded (res_json
        (JMessageProduct "Product created" g2 (mkProduct (body_name b) p s))) ∧
    (listProducts (createProduct g2 b (createProduct g1 b st).2).2).1 =
      Responded (res_json (JProducts docs)) ∧
    (g1, mkProduct (body_name b) p s) ∈ docs ∧
    (g2, mkProduct (body_name b) p s) ∈ docs.
Proof.
  intros Hne H1 H2 Hnone Ha Hp Hs.
  rewrite !(createProduct_accepted _ _ _ Ha), (cast_fields_numbers b p s Hp Hs).
  unfold cast_body_id. rewrite Hnone. simpl. rewrite H1. simpl.
  rewrite lookup_insert_ne by done. rewrite H2. simpl.
  eexists. split; [done|]. split; [done|]. split; [done|].
  split; apply elem_of_map_to_list.
  - rewrite lookup_insert_ne by done. apply lookup_insert_eq.
  - apply lookup_insert_eq.
Qed.

(** X15. [POST /cart] with a well-formed productId answers "Added to
    cart" exactly when the product exists, its stock is not below the
    quantity and the quantity is not NaN, and then the request's line is
    appended to the cart; with such an id and a product that is missing or
    short of stock the answer is the 400 "Insufficient stock or product
    not found", and in every case but the first nothing changes.  With a
    productId too short to be an id, the empty one included, the route
    throws a cast error, answers nothing and changes nothing. *)
Theorem addToCart_outcome (b : CartBody) (st : Store) :
  (is_ObjectId (body_productId b) = true →
     ((addToCart b st).1 = added_ok ↔
        ∃ p, products st !! body_productId b = Some p ∧
             PrimFloat.ltb (stock p) (body_quantity b) = false ∧
             PrimFloat.is_nan (body_quantity b) = false) ∧
     ((addToCart b st).1 = added_ok ∧
      (addToCart b st).2 =
        set_cart (cart st ++
          [mkCartLine (body_userId b) (body_productId b) (body_quantity b)]) st
      ∨
      (addToCart b st).1 =
        Responded (res_status_json 400
          (JError "Insufficient stock or product not found")) ∧
      (products st !! body_productId b = None ∨
       ∃ p, products st !! body_productId b = Some p ∧
            PrimFloat.ltb (stock p) (body_quantity b) = true) ∧
      (addToCart b st).2 = st
      ∨
      (addToCart b st).1 = Threw (CastError "quantity") ∧
      PrimFloat.is_nan (body_quantity b) = true ∧
      (addToCart b st).2 = st)) ∧
  ((length (String.list_ascii_of_string (body_productId b)) < 12)%nat →
     addToCart b st = (Threw (CastError "_id"), st)).
Proof.
  split.
  - intros Hid. unfold addToCart. rewrite (castObjectId_ObjectId _ Hid).
    unfold findById, save_cartItem. simpl.
    destruct (products st !! body_productId b) as [p|] eqn:Hp.
    + destruct (PrimFloat.ltb (stock p) (body_quantity b)) eqn:Hlt.
      * split; [|right; left; split; [done|split; [|done]]].
        -- split; [done|]. intros (p' & [= <-] & Hlt' & _). congruence.
        -- right. by exists p.
      * destruct (PrimFloat.is_nan (body_quantity b)) eqn:Hnan.
        -- split; [|right; right; by split].
           split; [done|]. intros (p' & _ & _ & ?). congruence.
        -- split; [|by left]. split; [|done]. intros _. by exists p.
    + split; [|right; left; split; [done|split; [by left|done]]].
      split; [done|]. intros (p' & ? & _). congruence.
  - intros Hlen. unfold addToCart. by rewrite (castObjectId_short _ Hlen).
Qed.

(** ** The arriving requests on the sample database *)

Lemma good_body_accepted : accepted_product_body good_body.
Proof. by apply text_chains_nil. Qed.



Lemma short_store_prefix_passes :
  lines_pass [mkCartLine "u" idB 5] (products short_store).
Proof. split; [|exact I]. exists productB. split; reflexivity. Qed.

Lemma short_store_prefix_finite :
  no_infinite_quantity [mkCartLine "u" idB 5].
Proof. intros l Hl. by apply list_elem_of_singleton in Hl as ->. Qed.

(** A body that passes is stored, returned and listed. *)
Example createProduct_good_body :
  (createProduct idC good_body hex_store).1 =
    Responded (res_json
      (JMessageProduct "Product created" idC
         (mkProduct "Product C" 12.5 8))) ∧
  products (createProduct idC good_body hex_store).2 !! idC =
    Some (mkProduct "Product C" 12.5 8).
Proof. split; by vm_compute. Qed.




(** X26. Checkout computes in doubles.  A tenth taken from a stock of 10
    leaves the double nearest to 9.9.  From a stock of 1e16, lines of 1.5,
    9999999999999998 and 0.5 leave nothing for the third: the first
    subtraction rounds to 9999999999999998, the second leaves 0, and the
    third line is answered with the 400, although the three quantities
    add up to the stock. *)
Theorem purchase_rounds_each_decrement :
  (purchase "u" tenth_store).1 = purchase_ok ∧
  products (purchase "u" tenth_store).2 !! idA =
    Some (mkProduct "Product A" 10 nine_point_nine) ∧
  purchase "u"
    (mkStore {[ idA := mkProduct "Product A" 10 1e16 ]} []
       [mkCartLine "u" idA 1.5; mkCartLine "u" idA 9999999999999998;
        mkCartLine "u" idA 0.5]) =
    (Responded (res_status_json 400
       (JError "Insufficient stock for Product A")),
     mkStore {[ idA := mkProduct "Product A" 10 0 ]} []
       [mkCartLine "u" idA 1.5; mkCartLine "u" idA 9999999999999998;
        mkCartLine "u" idA 0.5]).
Proof. split; [|split]; by vm_compute. Qed.

(** X27. A deleted id can come back.  After the delete of product A the
    line of user "u" has no product, and checkout throws; a create whose
    body brings product A's id as its [_id] stores the new record under
    that id, and checkout then settles the old line against the new
    record. *)
Theorem deleted_id_can_return :
  products (deleteProduct idA hex_store).2 !! idA = None ∧
  (purchase "u" (deleteProduct idA hex_store).2).1 =
    Threw (TypeError "Cannot read properties of null (reading 'name')") ∧
  (createProduct idC taken_id_body (deleteProduct idA hex_store).2).1 =
    Responded (res_json
      (JMessageProduct "Product created" idA (mkProduct "Product C" 12.5 8))) ∧
  (purchase "u"
     (createProduct idC taken_id_body (deleteProduct idA hex_store).2).2).1 =
    purchase_ok ∧
  products
    (purchase "u"
       (createProduct idC taken_id_body (deleteProduct idA hex_store).2).2).2
    !! idA = Some (mkProduct "Product C" 12.5 5).
Proof. repeat split; by vm_compute. Qed.




Lemma purchase_aborts_on_low_stock_witness :
  filter (fun l => userId l = "u") (cart short_store) =
    ([mkCartLine "u" idB 5] ++ mkCartLine "u" idA 11 :: [])%list ∧
  lines_pass [mkCartLine "u" idB 5] (products short_store) ∧
  no_infinite_quantity [mkCartLine "u" idB 5] ∧
  PrimFloat.leb 11 (stock productA) = false ∧
  (purchase "u" short_store).1 =
    Responded (res_status_json 400 (JError "Insufficient stock for Product A")) ∧
  products (purchase "u" short_store).2 !! idB =
    Some (mkProduct "Product B" 20 45).
Proof.
  split; [reflexivity|]. split; [exact short_store_prefix_passes|].
  split; [exact short_store_prefix_finite|]. split; [reflexivity|].
  rewrite (purchase_aborts_on_low_stock "u" short_store
             [mkCartLine "u" idB 5] [] (mkCartLine "u" idA 11) productA
             eq_refl short_store_prefix_passes short_store_prefix_finite
             eq_refl eq_refl).
  split; reflexivity.
Defined.

Lemma add_then_purchase_witness :
  is_ObjectId idA = true ∧
  filter (fun l => userId l = "u") (cart idle_store) = [] ∧
  products idle_store !! idA = Some productA ∧
  PrimFloat.leb 3 (stock productA) = true ∧
  PrimFloat.is_infinity 3 = false ∧
  products (purchase "u" (addToCart (mkCartBody "u" idA 3) idle_store).2).2
    !! idA = Some (mkProduct "Product A" 10 7) ∧
  cart (purchase "u" (addToCart (mkCartBody "u" idA 3) idle_store).2).2 = [].
Proof.
  split; [reflexivity|]. split; [reflexivity|]. split; [reflexivity|].
  split; [reflexivity|]. split; [reflexivity|].
  pose proof (add_then_purchase (mkCartBody "u" idA 3) idle_store productA
                eq_refl eq_refl eq_refl eq_refl eq_refl) as [_ Heq].
  cbn [body_userId body_productId body_quantity] in Heq. rewrite Heq.
  split; reflexivity.
Defined.

Lemma overcommitted_cart_witness :
  is_ObjectId idA = true ∧
  filter (fun l => userId l = "u") (cart idle_store) = [] ∧
  products idle_store !! idA = Some productA ∧
  PrimFloat.leb 6 (stock productA) = true ∧
  PrimFloat.is_infinity 6 = false ∧
  PrimFloat.leb 6 (PrimFloat.sub (stock productA) 6) = false ∧
  classify
    (purchase "u"
       (addToCart (mkCartBody "u" idA 6)
          (addToCart (mkCartBody "u" idA 6) idle_store).2).2).1 =
    Some InsufficientStock.
Proof.
  split; [reflexivity|]. split; [reflexivity|]. split; [reflexivity|].
  split; [reflexivity|]. split; [reflexivity|]. split; [reflexivity|].
  destruct (overcommitted_cart "u" idA 6 6 idle_store productA
              eq_refl eq_refl eq_refl eq_refl eq_refl eq_refl eq_refl)
    as (_ & _ & ->).
  reflexivity.
Defined.

Lemma create_then_delete_witness :
  is_ObjectId idC = true ∧
  products hex_store !! idC = None ∧
  body__id good_body = None ∧
  accepted_product_body good_body ∧
  products (deleteProduct idC (createProduct idC good_body hex_store).2).2 =
    products hex_store.
Proof.
  split; [reflexivity|]. split; [reflexivity|]. split; [reflexivity|].
  split; [exact good_body_accepted|].
  exact (proj2 (create_then_delete idC good_body hex_store 12.5 8
                  eq_refl eq_refl eq_refl good_body_accepted eq_refl eq_refl)).
Defined.

Lemma createProduct_twice_witness :
  idC ≠ idD ∧
  accepted_product_body good_body ∧
  ∃ docs,
    (listProducts
       (createProduct idD good_body
          (createProduct idC good_body hex_store).2).2).1 =
      Responded (res_json (JProducts docs)) ∧
    (idC, mkProduct "Product C" 12.5 8) ∈ docs ∧
    (idD, mkProduct "Product C" 12.5 8) ∈ docs.
Proof.
  assert (idC ≠ idD) as Hne by discriminate.
  split; [exact Hne|]. split; [exact good_body_accepted|].
  destruct (createProduct_twice idC idD good_body hex_store 12.5 8
              Hne eq_refl eq_refl eq_refl good_body_accepted eq_refl eq_refl)
    as (docs & _ & _ & Hlist & H1 & H2).
  exists docs. split; [exact Hlist|]. split; [exact H1 | exact H2].
Defined.

End on_doubles.
